(** * The Redis services of the FastAPI scaffold

    A shallow embedding of [src/services/redis_service.py] (class
    [RedisService]), [src/services/redis_async_service.py] (class
    [AsyncRedisService]) and [src/exceptions/redis_exceptions.py].

    Python objects that the services mutate (class attributes of
    [RedisService], instance attributes of the [AsyncRedisService]
    singleton) live in an explicit [World]; methods are computations in a
    state-and-exception monad over it.  The redis-py client library is not
    part of the repository: it is a [Backend] of handlers over an abstract
    server state, and every method call made on a client object is recorded
    in the world's [trace]. *)

From Stdlib Require Import ZArith Ascii String.
From stdpp Require Import gmap strings list fin_maps pretty.

Local Open Scope Z_scope.
Local Open Scope string_scope.

(** ** Python values and exceptions *)

(** The values the services pass around.  A function object is named by its
    identity; what calling it does is given by the environment of the
    decorator section below. *)
Inductive pyval : Type :=
| PNone
| PBool (b : bool)
| PInt (n : Z)
| PStr (s : string)
| PFunc (f : nat).

(** Python's [callable(v)]. *)
Definition callable (v : pyval) : bool :=
  match v with
  | PFunc _ => true
  | _ => false
  end.

(** Exceptions.  The first two are the [HTTPException] subclasses of
    [redis_exceptions.py] with their [status_code] and [detail]; [Exception]
    is the builtin base class raised as such; [RedisError] stands for
    whatever the client library raises on a command. *)
Inductive exn : Type :=
| RedisNotInitializedException (status_code : Z) (detail : string)
| RedisAlreadyInitializedException (status_code : Z) (detail : string)
| Exception (msg : string)
| TypeError (msg : string)
| ValueError (msg : string)
| AttributeError (msg : string)
| RedisError (msg : string).

(** [RedisNotInitializedException.__init__] *)
Definition new_RedisNotInitializedException (error_message : string) : exn :=
  let error_message :=
    if String.eqb error_message ""
    then "RedisService not initialized. Call `initialize()` first"
    else error_message in
  RedisNotInitializedException 404 error_message.

(** [RedisAlreadyInitializedException.__init__] *)
Definition new_RedisAlreadyInitializedException (error_message : string) : exn :=
  let error_message :=
    if String.eqb error_message ""
    then "RedisService is already initialized."
    else error_message in
  RedisAlreadyInitializedException 404 error_message.

Definition is_NotInitialized (e : exn) : bool :=
  match e with
  | RedisNotInitializedException _ _ => true
  | _ => false
  end.

Definition is_AlreadyInitialized (e : exn) : bool :=
  match e with
  | RedisAlreadyInitializedException _ _ => true
  | _ => false
  end.

(** ** Outcomes and the state-and-exception monad *)

Inductive result (A : Type) : Type :=
| Ok (a : A)
| Raise (e : exn).
Arguments Ok {A} a.
Arguments Raise {A} e.

Definition M (W A : Type) : Type := W -> result A * W.

Definition ret {W A} (a : A) : M W A := fun w => (Ok a, w).

Definition raise {W A} (e : exn) : M W A := fun w => (Raise e, w).

Definition bind {W A B} (m : M W A) (k : A -> M W B) : M W B :=
  fun w =>
    match m w with
    | (Ok a, w') => k a w'
    | (Raise e, w') => (Raise e, w')
    end.

Notation "'let*' x := c 'in' k" := (bind c (fun x => k))
  (at level 10, x name, c at level 100, k at level 200).
Notation "c ;; k" := (bind c (fun _ => k))
  (at level 100, k at level 200, right associativity).

(** ** Client objects *)

(** A pool made by [redis.ConnectionPool(...)] in [set_connection_pool],
    known by the keyword arguments of that call. *)
Record ConnectionPool : Type := {
  pool_host : string;
  pool_port : Z;
  pool_db : Z;
  pool_password : option string;
  max_connections : Z;
  pool_decode_responses : bool;
  pool_kwargs : list (string * pyval)
}.

(** A client object: [redis.Redis(host=..., ...)] of the synchronous service
    or [redis.Redis(connection_pool=...)] of the asynchronous one. *)
Inductive Redis : Type :=
| RedisDirect (host : string) (port : Z) (username password : option string)
              (db : Z) (decode_responses : bool)
| RedisPooled (connection_pool : ConnectionPool).

(** What [client.pipeline()] returns: a command builder bound to the client. *)
Record Pipeline : Type := { pipe_client : Redis }.

(** A method call made on a client or pool object. *)
Inductive Cmd : Type :=
| CGet (c : Redis) (name : pyval)
| CSet (c : Redis) (name value : pyval) (ex : option Z)
| CMget (c : Redis) (keys : list pyval)
| CMset (c : Redis) (mapping : list (pyval * pyval))
| CKeys (c : Redis) (pattern : pyval)
| CDelete (c : Redis) (name : pyval)
| CExists (c : Redis) (name : pyval)
| CFlushdb (c : Redis)
| CPipeline (c : Redis)
| CClose (c : Redis)
| CAclose (c : Redis)
| CPoolAclose (p : ConnectionPool).

(** The client library and the server behind it: one handler per method,
    over the server's state.  Replies have the types redis-py gives them
    with [decode_responses=True]. *)
Record Backend : Type := {
  Srv : Type;
  redis_get : Redis -> pyval -> Srv -> result (option string) * Srv;
  redis_set : Redis -> pyval -> pyval -> option Z -> Srv -> result bool * Srv;
  redis_mget : Redis -> list pyval -> Srv -> result (list (option string)) * Srv;
  redis_mset : Redis -> list (pyval * pyval) -> Srv -> result bool * Srv;
  redis_keys : Redis -> pyval -> Srv -> result (list string) * Srv;
  redis_delete : Redis -> pyval -> Srv -> result Z * Srv;
  redis_exists : Redis -> pyval -> Srv -> result Z * Srv;
  redis_flushdb : Redis -> Srv -> result bool * Srv;
  redis_close : Redis -> Srv -> result unit * Srv;
  redis_aclose : Redis -> Srv -> result unit * Srv;
  pool_aclose : ConnectionPool -> Srv -> result unit * Srv
}.

(** ** The world *)

(** An instance of [RedisService] is known by its identity only: the class
    keeps all its state in class attributes. *)
Definition obj : Type := nat.

Record World (B : Backend) (U : Type) : Type := {
  srv : Srv B;                          (* the server *)
  trace : list Cmd;                     (* calls on client objects, oldest first *)
  usr : U;                              (* state of the application's own functions *)
  next_obj : obj;                       (* next fresh object identity *)
  RedisService_instance : option obj;   (* RedisService._instance *)
  RedisService_client : option Redis;   (* RedisService._client *)
  self_pool : option ConnectionPool;    (* self._pool of the AsyncRedisService instance *)
  self_client : option Redis            (* self._client of the AsyncRedisService instance *)
}.
Arguments srv {B U} w.
Arguments trace {B U} w.
Arguments usr {B U} w.
Arguments next_obj {B U} w.
Arguments RedisService_instance {B U} w.
Arguments RedisService_client {B U} w.
Arguments self_pool {B U} w.
Arguments self_client {B U} w.

Section world.
Context {B : Backend} {U : Type}.
Implicit Types w : World B U.

Definition set_srv_trace (s : Srv B) (t : list Cmd) w : World B U :=
  {| srv := s; trace := t; usr := usr w; next_obj := next_obj w;
     RedisService_instance := RedisService_instance w;
     RedisService_client := RedisService_client w;
     self_pool := self_pool w; self_client := self_client w |}.

Definition set_next_obj (n : obj) w : World B U :=
  {| srv := srv w; trace := trace w; usr := usr w; next_obj := n;
     RedisService_instance := RedisService_instance w;
     RedisService_client := RedisService_client w;
     self_pool := self_pool w; self_client := self_client w |}.

Definition set_RedisService_instance (i : option obj) w : World B U :=
  {| srv := srv w; trace := trace w; usr := usr w; next_obj := next_obj w;
     RedisService_instance := i;
     RedisService_client := RedisService_client w;
     self_pool := self_pool w; self_client := self_client w |}.

Definition set_RedisService_client (c : option Redis) w : World B U :=
  {| srv := srv w; trace := trace w; usr := usr w; next_obj := next_obj w;
     RedisService_instance := RedisService_instance w;
     RedisService_client := c;
     self_pool := self_pool w; self_client := self_client w |}.

Definition set_self_pool (p : option ConnectionPool) w : World B U :=
  {| srv := srv w; trace := trace w; usr := usr w; next_obj := next_obj w;
     RedisService_instance := RedisService_instance w;
     RedisService_client := RedisService_client w;
     self_pool := p; self_client := self_client w |}.

Definition set_self_client (c : option Redis) w : World B U :=
  {| srv := srv w; trace := trace w; usr := usr w; next_obj := next_obj w;
     RedisService_instance := RedisService_instance w;
     RedisService_client := RedisService_client w;
     self_pool := self_pool w; self_client := c |}.

(** A method call on a client object: recorded in the trace, answered by
    the backend's handler. *)
Definition invoke {A} (cmd : Cmd) (h : Srv B -> result A * Srv B)
  : M (World B U) A :=
  fun w =>
    let '(r, s) := h (srv w) in
    (r, set_srv_trace s (trace w ++ [cmd]) w).

Definition read {A} (f : World B U -> A) : M (World B U) A :=
  fun w => (Ok (f w), w).

Definition update (f : World B U -> World B U) : M (World B U) unit :=
  fun w => (Ok tt, f w).
End world.

(** ** [RedisService] (synchronous)

    [with cls._lock:] brackets the body between acquiring and releasing a
    lock that is free on entry of every sequential call; it is the identity
    here. *)
Module RedisService.
Section methods.
Context {B : Backend} {U : Type}.
Abbreviation W := (World B U).

(** [RedisService.__init__] *)
Definition __init__ (self : obj) (host : string) (port : Z)
    (username password : option string) (db : Z) : M W unit :=
  let* client := read RedisService_client in
  match client with
  | Some _ => raise (new_RedisAlreadyInitializedException "")
  | None =>
      update (set_RedisService_client
                (Some (RedisDirect host port username password db true)))
  end.

(** [cls(host, port, username, password, db)]: a fresh object, then
    [__init__] on it. *)
Definition new (host : string) (port : Z)
    (username password : option string) (db : Z) : M W obj :=
  let* self := read next_obj in
  update (set_next_obj (S self)) ;;
  __init__ self host port username password db ;;
  ret self.

(** [RedisService.initialize] *)
Definition initialize (host : string) (port : Z)
    (username password : option string) (db : Z) : M W (option obj) :=
  let* inst := read RedisService_instance in
  match inst with
  | None =>
      let* o := new host port username password db in
      update (set_RedisService_instance (Some o))
  | Some _ => ret tt
  end ;;
  read RedisService_instance.

(** [RedisService.get_instance] *)
Definition get_instance : M W obj :=
  let* inst := read RedisService_instance in
  match inst with
  | None => raise (new_RedisNotInitializedException "")
  | Some o => ret o
  end.

(** Attribute access [RedisService._client.<method>]: on [None] it is an
    [AttributeError]. *)
Definition client_attr (method : string) : M W Redis :=
  let* client := read RedisService_client in
  match client with
  | None =>
      raise (AttributeError
               ("'NoneType' object has no attribute '" ++ method ++ "'"))
  | Some c => ret c
  end.

(** [RedisService.set] *)
Definition set (self : obj) (key value : pyval) (ex : option Z) : M W unit :=
  let* c := client_attr "set" in
  invoke (CSet c key value ex) (redis_set B c key value ex) ;;
  ret tt.

(** [RedisService.get] *)
Definition get (self : obj) (key : pyval) : M W (option string) :=
  let* c := client_attr "get" in
  invoke (CGet c key) (redis_get B c key).

(** [RedisService.close] *)
Definition close (self : obj) : M W unit :=
  let* client := read RedisService_client in
  match client with
  | Some c => invoke (CClose c) (redis_close B c)
  | None => ret tt
  end.
End methods.
End RedisService.

(** ** [AsyncRedisService]

    The methods below are those of the one instance the class hands out;
    its attributes [_pool] and [_client] are [self_pool] and [self_client]
    of the world.  [await] of a coroutine runs it to completion, and
    [with self._lock:] is the identity as above. *)
Module AsyncRedisService.
Section methods.
Context {B : Backend} {U : Type}.
Abbreviation W := (World B U).

(** [AsyncRedisService.__init__] *)
Definition __init__ : M W unit :=
  update (set_self_pool None) ;;
  update (set_self_client None).

(** Whether the extra keyword arguments name [decode_responses]. *)
Definition names_decode_responses (kwargs : list (string * pyval)) : bool :=
  existsb (fun kv => String.eqb (fst kv) "decode_responses") kwargs.

(** What the call [redis.ConnectionPool(host=..., ..., decode_responses=True,
    **kwargs)] does before a pool exists: a [decode_responses] among the
    extra keywords names that keyword a second time, which the call refuses,
    and the constructor refuses a negative [max_connections].  Nothing else
    is looked at: connections are made on first use. *)
Definition new_ConnectionPool {W} (host : string) (port db : Z)
    (password : option string) (max_connections : Z)
    (kwargs : list (string * pyval)) : M W ConnectionPool :=
  if names_decode_responses kwargs then
    raise (TypeError
             "got multiple values for keyword argument 'decode_responses'")
  else if Z.ltb max_connections 0 then
    raise (ValueError
             (String "034" ("max_connections" ++
                String "034" " must be a positive integer")))
  else
    ret {| pool_host := host; pool_port := port; pool_db := db;
           pool_password := password; max_connections := max_connections;
           pool_decode_responses := true; pool_kwargs := kwargs |}.

(** [AsyncRedisService.set_connection_pool] *)
Definition set_connection_pool (host : string) (port db : Z)
    (password : option string) (max_connections : Z)
    (kwargs : list (string * pyval)) : M W unit :=
  let* pool := new_ConnectionPool host port db password max_connections kwargs in
  update (set_self_pool (Some pool)) ;;
  update (set_self_client (Some (RedisPooled pool))).

(** The same with the defaults of the signature. *)
Definition set_connection_pool_defaults : M W unit :=
  set_connection_pool "localhost" 6379 0 None 100 [].

(** [AsyncRedisService.get_connection] *)
Definition get_connection : M W Redis :=
  let* client := read self_client in
  match client with
  | None =>
      raise (Exception
               "Connection pool not set. Call set_connection_pool() first.")
  | Some c => ret c
  end.

(** [AsyncRedisService.aclose] *)
Definition aclose : M W unit :=
  let* client := read self_client in
  match client with
  | Some c => invoke (CAclose c) (redis_aclose B c)
  | None => ret tt
  end ;;
  let* pool := read self_pool in
  match pool with
  | Some p => invoke (CPoolAclose p) (pool_aclose B p)
  | None => ret tt
  end ;;
  update (set_self_client None) ;;
  update (set_self_pool None).

(** [AsyncRedisService.__aenter__]; the instance it returns is the one
    whose attributes the world holds. *)
Definition __aenter__ : M W unit := ret tt.

(** [AsyncRedisService.__aexit__]; its result is [None], so an exception
    of the block is not suppressed. *)
Definition __aexit__ (exc : option exn) : M W unit := aclose.

(** [async with service as cm: body] *)
Definition async_with {A} (body : M W A) : M W A :=
  fun w =>
    match __aenter__ w with
    | (Raise e, w0) => (Raise e, w0)
    | (Ok _, w0) =>
        match body w0 with
        | (Ok a, w1) =>
            match __aexit__ None w1 with
            | (Ok _, w2) => (Ok a, w2)
            | (Raise e, w2) => (Raise e, w2)
            end
        | (Raise e, w1) =>
            match __aexit__ (Some e) w1 with
            | (Ok _, w2) => (Raise e, w2)
            | (Raise e', w2) => (Raise e', w2)
            end
        end
    end.

(** [AsyncRedisService.get] *)
Definition get (key : pyval) : M W (option string) :=
  let* client := get_connection in
  invoke (CGet client key) (redis_get B client key).

(** [AsyncRedisService.set] *)
Definition set (key value : pyval) (expire : option Z) : M W bool :=
  let* client := get_connection in
  invoke (CSet client key value expire) (redis_set B client key value expire).

(** [AsyncRedisService.mget] *)
Definition mget (keys : list pyval) : M W (list (option string)) :=
  let* client := get_connection in
  invoke (CMget client keys) (redis_mget B client keys).

(** [AsyncRedisService.mset] *)
Definition mset (mapping : list (pyval * pyval)) : M W bool :=
  let* client := get_connection in
  invoke (CMset client mapping) (redis_mset B client mapping).

(** The dict comprehension [{k: v for k, v in pairs}]: entries are
    assigned in order, a later one replacing an earlier one of the same
    key. *)
Definition dict_of (pairs : list (string * option string))
  : gmap string (option string) :=
  fold_left (fun d kv => <[kv.1 := kv.2]> d) pairs ∅.

(** [AsyncRedisService.get_by_pattern] *)
Definition get_by_pattern (pattern : pyval)
  : M W (gmap string (option string)) :=
  let* client := get_connection in
  let* keys := invoke (CKeys client pattern) (redis_keys B client pattern) in
  match keys with
  | [] => ret ∅
  | _ :: _ =>
      let* values :=
        invoke (CMget client (PStr <$> keys))
               (redis_mget B client (PStr <$> keys)) in
      ret (dict_of (zip keys values))
  end.

(** [AsyncRedisService.delete] *)
Definition delete (key : pyval) : M W Z :=
  let* client := get_connection in
  invoke (CDelete client key) (redis_delete B client key).

(** [AsyncRedisService.exists] *)
Definition exists_ (key : pyval) : M W bool :=
  let* client := get_connection in
  let* count := invoke (CExists client key) (redis_exists B client key) in
  ret (Z.eqb count 1).

(** [AsyncRedisService.keys], whose pattern defaults to ["*"] *)
Definition keys (pattern : pyval) : M W (list string) :=
  let* client := get_connection in
  invoke (CKeys client pattern) (redis_keys B client pattern).

(** [AsyncRedisService.flushdb] *)
Definition flushdb : M W unit :=
  let* client := get_connection in
  invoke (CFlushdb client) (redis_flushdb B client) ;;
  ret tt.

(** [AsyncRedisService.pipeline] *)
Definition pipeline : M W Pipeline :=
  let* client := get_connection in
  invoke (CPipeline client) (fun s => (Ok {| pipe_client := client |}, s)).

(** *** The caching decorator *)

(** Positional and keyword arguments of a call. *)
Definition pyargs : Type := (list pyval * list (string * pyval))%type.

(** What calling each function object does. *)
Variable funcs : nat -> pyargs -> M W pyval.

(** The awaited call of [func] on the wrapper's own arguments. *)
Definition call (func : pyval) (args : pyargs) : M W pyval :=
  match func with
  | PFunc f => funcs f args
  | _ => raise (TypeError "object is not callable")
  end.

(** The inner [wrapper] of [set_decorator], closed over [self], [key],
    [expire] and [func]. *)
Definition wrapper (key : pyval) (expire : option Z) (func : pyval)
    (args : pyargs) : M W pyval :=
  let* result := call func args in
  set key result expire ;;
  ret result.

(** The inner [decorator]; [functools.wraps] only copies the name and
    documentation of [func] onto the wrapper. *)
Definition decorator (key : pyval) (expire : option Z) (func : pyval)
  : pyargs -> M W pyval :=
  wrapper key expire func.

(** What [set_decorator] can return: the decorator, still to be applied
    to a function, or a wrapper. *)
Inductive decorated : Type :=
| Decorator (d : pyval -> pyargs -> M W pyval)
| Wrapper (wr : pyargs -> M W pyval).

(** [AsyncRedisService.set_decorator] *)
Definition set_decorator (key : pyval) (expire : option Z) : decorated :=
  if negb (callable key)
  then Decorator (decorator key expire)
  else Wrapper (decorator key expire key).
End methods.
End AsyncRedisService.

(** ** A reference backend

    One server the handlers can be read against: a finite map from keys to
    their string and time to live, answering as a Redis server does through
    redis-py with [decode_responses=True].  No time passes, so no key
    expires. *)
Module RefStore.

(** Glob matching of [KEYS]: [*] matches any run of characters, [?] one. *)
Fixpoint glob (p s : string) : bool :=
  match p with
  | EmptyString =>
      match s with EmptyString => true | String _ _ => false end
  | String c p' =>
      if Ascii.eqb c "*"%char then
        (fix star (s : string) : bool :=
           glob p' s ||
           match s with EmptyString => false | String _ s' => star s' end) s
      else
        match s with
        | EmptyString => false
        | String d s' => (Ascii.eqb c "?"%char || Ascii.eqb c d) && glob p' s'
        end
  end.

(** What redis-py sends for a key or a value: strings as they are, integers
    in decimal; anything else is refused before a command is sent. *)
Definition encode (v : pyval) : option string :=
  match v with
  | PStr s => Some s
  | PInt n => Some (pretty n)
  | _ => None
  end.

Definition DataError : exn := RedisError "Invalid input of type".

Abbreviation store := (gmap string (string * option Z)).

Definition with_key {A} (k : pyval) (s : store)
    (f : string -> result A * store) : result A * store :=
  match encode k with
  | Some k' => f k'
  | None => (Raise DataError, s)
  end.

Definition ref_get (c : Redis) (k : pyval) (s : store)
  : result (option string) * store :=
  with_key k s (fun k' => (Ok (fst <$> s !! k'), s)).

Definition ref_set (c : Redis) (k v : pyval) (ex : option Z) (s : store)
  : result bool * store :=
  with_key k s (fun k' =>
  with_key v s (fun v' =>
    match ex with
    | Some n =>
        if Z.leb n 0
        then (Raise (RedisError "invalid expire time in 'set' command"), s)
        else (Ok true, <[k' := (v', ex)]> s)
    | None => (Ok true, <[k' := (v', ex)]> s)
    end)).

Fixpoint encode_all (ks : list pyval) : option (list string) :=
  match ks with
  | [] => Some []
  | k :: ks' =>
      match encode k, encode_all ks' with
      | Some k', Some r => Some (k' :: r)
      | _, _ => None
      end
  end.

Definition ref_mget (c : Redis) (ks : list pyval) (s : store)
  : result (list (option string)) * store :=
  match ks, encode_all ks with
  | [], _ =>
      (Raise (RedisError "wrong number of arguments for 'mget' command"), s)
  | _, None => (Raise DataError, s)
  | _, Some ks' => (Ok ((fun k => fst <$> s !! k) <$> ks'), s)
  end.

Fixpoint ref_mset_go (m : list (pyval * pyval)) (s : store) : option store :=
  match m with
  | [] => Some s
  | (k, v) :: m' =>
      match encode k, encode v with
      | Some k', Some v' => ref_mset_go m' (<[k' := (v', None)]> s)
      | _, _ => None
      end
  end.

Definition ref_mset (c : Redis) (m : list (pyval * pyval)) (s : store)
  : result bool * store :=
  match m, ref_mset_go m s with
  | [], _ =>
      (Raise (RedisError "wrong number of arguments for 'mset' command"), s)
  | _, None => (Raise DataError, s)
  | _, Some s' => (Ok true, s')
  end.

Definition ref_keys (c : Redis) (p : pyval) (s : store)
  : result (list string) * store :=
  with_key p s (fun p' =>
    (Ok (filter (fun k => Is_true (glob p' k)) (fst <$> map_to_list s)), s)).

Definition ref_delete (c : Redis) (k : pyval) (s : store) : result Z * store :=
  with_key k s (fun k' =>
    match s !! k' with
    | Some _ => (Ok 1, delete k' s)
    | None => (Ok 0, s)
    end).

Definition ref_exists (c : Redis) (k : pyval) (s : store) : result Z * store :=
  with_key k s (fun k' =>
    match s !! k' with
    | Some _ => (Ok 1, s)
    | None => (Ok 0, s)
    end).

Definition backend : Backend :=
  {| Srv := store;
     redis_get := ref_get;
     redis_set := ref_set;
     redis_mget := ref_mget;
     redis_mset := ref_mset;
     redis_keys := ref_keys;
     redis_delete := ref_delete;
     redis_exists := ref_exists;
     redis_flushdb := fun _ _ => (Ok true, ∅);
     redis_close := fun _ s => (Ok tt, s);
     redis_aclose := fun _ s => (Ok tt, s);
     pool_aclose := fun _ s => (Ok tt, s) |}.

(** The process at start: an empty server, no call made, no instance and
    no client. *)
Definition fresh {U} (u : U) : World backend U :=
  Build_World backend U (∅ : store) [] u O None None None None.

End RefStore.

(** * Properties *)

(** Unfolds the monad so that a method applied to a world computes. *)
Ltac run :=
  unfold bind, read, update, ret, raise, invoke in *; simpl in *.

(** ** [RedisService] *)
Section RedisService_properties.
Context {B : Backend} {U : Type}.
Implicit Types w : World B U.
Import RedisService.

(** The constructor refuses to run while a client exists. *)
Lemma new_raises_when_client_exists w c host port username password db :
  RedisService_client w = Some c ->
  exists w',
    new host port username password db w
    = (Raise (new_RedisAlreadyInitializedException ""), w') /\
    RedisService_client w' = Some c /\
    RedisService_instance w' = RedisService_instance w.
Proof.
  intros Hc. unfold new, __init__. run. rewrite Hc. eauto.
Qed.

(** A successful [initialize] leaves an instance recorded and returns it. *)
Lemma initialize_ok_instance w w1 host port username password db r :
  initialize host port username password db w = (Ok r, w1) ->
  RedisService_instance w1 = r /\ exists o, r = Some o.
Proof.
  unfold initialize, new, __init__. run.
  destruct (RedisService_instance w) as [o|] eqn:Hi.
  - intros [= <- <-]. rewrite Hi. eauto.
  - destruct (RedisService_client w); simpl; [discriminate|].
    intros [= <- <-]. simpl. eauto.
Qed.

(** With an instance recorded, [initialize] only hands it out. *)
Lemma initialize_with_instance w o host port username password db :
  RedisService_instance w = Some o ->
  initialize host port username password db w = (Ok (Some o), w).
Proof.
  intros Hi. unfold initialize. run. rewrite Hi. simpl. by rewrite Hi.
Qed.

(** The first [initialize] of a process creates the client. *)
Lemma initialize_first w host port username password db :
  RedisService_instance w = None ->
  RedisService_client w = None ->
  exists w1,
    initialize host port username password db w = (Ok (Some (next_obj w)), w1) /\
    RedisService_client w1
    = Some (RedisDirect host port username password db true) /\
    srv w1 = srv w /\ trace w1 = trace w.
Proof.
  intros Hi Hc. unfold initialize, new, __init__. run.
  rewrite Hi. simpl. rewrite Hc. simpl. eauto.
Qed.

(** [initialize] reaches the constructor, and its refusal, only when a
    client exists while no instance is recorded. *)
Lemma initialize_raises_iff w host port username password db :
  (exists e, fst (initialize host port username password db w) = Raise e) <->
  RedisService_instance w = None /\ is_Some (RedisService_client w).
Proof.
  unfold initialize, new, __init__. run.
  destruct (RedisService_instance w) as [o|] eqn:Hi; simpl.
  - rewrite Hi. split; [intros [e [=]] | intros [[=] _]].
  - destruct (RedisService_client w) as [c|]; simpl.
    + split; eauto.
    + split; [intros [e [=]] | intros [_ [c [=]]]].
Qed.

Lemma get_instance_with_instance w o :
  RedisService_instance w = Some o -> get_instance w = (Ok o, w).
Proof. intros Hi. unfold get_instance. run. by rewrite Hi. Qed.

Lemma get_instance_without_instance w :
  RedisService_instance w = None ->
  get_instance w
  = (Raise (RedisNotInitializedException 404
              "RedisService not initialized. Call `initialize()` first"), w).
Proof. intros Hi. unfold get_instance. run. by rewrite Hi. Qed.

(** [close] touches neither class attribute. *)
Lemma close_keeps_attributes w self :
  RedisService_instance (snd (close self w)) = RedisService_instance w /\
  RedisService_client (snd (close self w)) = RedisService_client w.
Proof.
  unfold close. run. destruct (RedisService_client w) as [c|] eqn:Hc; simpl.
  - by destruct (redis_close B c (srv w)).
  - by rewrite Hc.
Qed.

Lemma set_with_client w c self key value ex :
  RedisService_client w = Some c ->
  set self key value ex w
  = (match fst (redis_set B c key value ex (srv w)) with
     | Ok _ => Ok tt
     | Raise e => Raise e
     end,
     set_srv_trace (snd (redis_set B c key value ex (srv w)))
                   (trace w ++ [CSet c key value ex]) w).
Proof.
  intros Hc. unfold set, client_attr. run. rewrite Hc. simpl.
  by destruct (redis_set B c key value ex (srv w)) as [[b|e] s].
Qed.

Lemma get_with_client w c self key :
  RedisService_client w = Some c ->
  get self key w
  = (fst (redis_get B c key (srv w)),
     set_srv_trace (snd (redis_get B c key (srv w)))
                   (trace w ++ [CGet c key]) w).
Proof.
  intros Hc. unfold get, client_attr. run. rewrite Hc. simpl.
  by destruct (redis_get B c key (srv w)) as [[b|e] s].
Qed.

End RedisService_properties.

(** ** [AsyncRedisService] *)
Section AsyncRedisService_properties.
Context {B : Backend} {U : Type}.
Implicit Types w : World B U.
Import AsyncRedisService.

Definition pool_not_set : exn :=
  Exception "Connection pool not set. Call set_connection_pool() first.".

Lemma get_connection_without_client w :
  self_client w = None -> get_connection w = (Raise pool_not_set, w).
Proof. intros Hc. unfold get_connection. run. by rewrite Hc. Qed.

Lemma get_connection_with_client w c :
  self_client w = Some c -> get_connection w = (Ok c, w).
Proof. intros Hc. unfold get_connection. run. by rewrite Hc. Qed.

(** A method that starts by [get_connection] stops there, in place, when
    there is no client. *)
Lemma needs_connection_without_client {A} (k : Redis -> M (World B U) A) w :
  self_client w = None ->
  bind get_connection k w = (Raise pool_not_set, w).
Proof.
  intros Hc. unfold bind. by rewrite (get_connection_without_client w Hc).
Qed.

Lemma needs_connection_with_client {A} (k : Redis -> M (World B U) A) w c :
  self_client w = Some c ->
  bind get_connection k w = k c w.
Proof.
  intros Hc. unfold bind. by rewrite (get_connection_with_client w c Hc).
Qed.

Lemma set_connection_pool_then_get_connection
    w host port db password maxc kwargs :
  AsyncRedisService.names_decode_responses kwargs = false ->
  0 <= maxc ->
  exists p w',
    p = {| pool_host := host; pool_port := port; pool_db := db;
           pool_password := password; max_connections := maxc;
           pool_decode_responses := true; pool_kwargs := kwargs |} /\
    set_connection_pool host port db password maxc kwargs w = (Ok tt, w') /\
    self_pool w' = Some p /\
    self_client w' = Some (RedisPooled p) /\
    trace w' = trace w /\ srv w' = srv w /\
    get_connection w' = (Ok (RedisPooled p), w').
Proof.
  intros Hk Hm. unfold set_connection_pool, new_ConnectionPool.
  rewrite Hk. destruct (Z.ltb_spec maxc 0) as [|_]; [lia|].
  eexists _, _. split; [reflexivity|]. split; [reflexivity|]. done.
Qed.

(** A [set_connection_pool] that does not return leaves the world as it
    was, and it fails exactly on a repeated [decode_responses] or a negative
    [max_connections]. *)
Lemma set_connection_pool_raises w host port db password maxc kwargs :
  (AsyncRedisService.names_decode_responses kwargs = true \/ maxc < 0) <->
  exists e, set_connection_pool host port db password maxc kwargs w
            = (Raise e, w).
Proof.
  unfold set_connection_pool, new_ConnectionPool. run.
  destruct (AsyncRedisService.names_decode_responses kwargs); simpl.
  - split; eauto.
  - destruct (Z.ltb_spec maxc 0) as [Hm|Hm]; simpl.
    + split; eauto.
    + split; [intros [|]; [done|lia] | intros [e [=]]].
Qed.

(** Whatever [set_connection_pool] is given, the world it leaves is the one
    it found or one with a pool and the client bound to it. *)
Lemma set_connection_pool_final_world w host port db password maxc kwargs :
  snd (set_connection_pool host port db password maxc kwargs w) = w \/
  exists p,
    pool_decode_responses p = true /\
    snd (set_connection_pool host port db password maxc kwargs w)
    = set_self_client (Some (RedisPooled p)) (set_self_pool (Some p) w).
Proof.
  unfold set_connection_pool, new_ConnectionPool. run.
  destruct (AsyncRedisService.names_decode_responses kwargs); simpl; [auto|].
  destruct (Z.ltb maxc 0); simpl; [auto|].
  right. eexists. split; [|reflexivity]. done.
Qed.

(** After an [aclose] that returns, both attributes are [None]. *)
Lemma aclose_ok_clears w w' :
  aclose w = (Ok tt, w') -> self_pool w' = None /\ self_client w' = None.
Proof.
  unfold aclose. run.
  destruct (self_client w) as [c|]; simpl.
  - destruct (redis_aclose B c (srv w)) as [[[]|e] s]; simpl; [|discriminate].
    destruct (self_pool w) as [p|]; simpl.
    + destruct (pool_aclose B p s) as [[[]|e] s']; simpl; [|discriminate].
      by intros [= <-].
    + by intros [= <-].
  - destruct (self_pool w) as [p|]; simpl.
    + destruct (pool_aclose B p (srv w)) as [[[]|e] s']; simpl; [|discriminate].
      by intros [= <-].
    + by intros [= <-].
Qed.

(** [aclose] leaves the class attributes of the synchronous service alone. *)
Lemma aclose_without_pool w :
  self_pool w = None -> self_client w = None ->
  exists w', aclose w = (Ok tt, w') /\ srv w' = srv w /\ trace w' = trace w.
Proof.
  intros Hp Hc. unfold aclose. run. rewrite Hc. simpl. rewrite Hp. simpl. eauto.
Qed.

(** The world a managed block leaves is the one [aclose] leaves after the
    body, whether the body returned or raised. *)
Lemma async_with_final_world {A} (body : M (World B U) A) w :
  snd (async_with body w) = snd (aclose (snd (body w))).
Proof.
  unfold async_with, __aenter__, __aexit__. run.
  destruct (body w) as [[a|e] w1]; simpl;
    by destruct (aclose w1) as [[[]|e'] w2].
Qed.

(** A block whose body returned and whose exit closed the pool returns the
    body's value; an exception of the body comes out of the block. *)
Lemma async_with_result {A} (body : M (World B U) A) w rb w1 w2 :
  body w = (rb, w1) -> aclose w1 = (Ok tt, w2) ->
  async_with body w = (rb, w2).
Proof.
  intros Hb Hx. unfold async_with, __aenter__, __aexit__. run.
  rewrite Hb. destruct rb; by rewrite Hx.
Qed.

(** The wrapper, step by step: the function runs, then [set] stores what it
    returned, and the wrapper returns the same value. *)
Lemma wrapper_run funcs key expire f args w r w1 c :
  funcs f args w = (Ok r, w1) ->
  self_client w1 = Some c ->
  wrapper funcs key expire (PFunc f) args w
  = (match fst (redis_set B c key r expire (srv w1)) with
     | Ok _ => Ok r
     | Raise e => Raise e
     end,
     set_srv_trace (snd (redis_set B c key r expire (srv w1)))
                   (trace w1 ++ [CSet c key r expire]) w1).
Proof.
  intros Hf Hc. unfold wrapper, call, set, get_connection. run.
  rewrite Hf. rewrite Hc. simpl.
  by destruct (redis_set B c key r expire (srv w1)) as [[b|e] s].
Qed.

(** A function that raises is not followed by any call on the client. *)
Lemma wrapper_func_raises funcs key expire f args w e w1 :
  funcs f args w = (Raise e, w1) ->
  wrapper funcs key expire (PFunc f) args w = (Raise e, w1).
Proof. intros Hf. unfold wrapper, call. run. by rewrite Hf. Qed.

(** The dict comprehension, entry by entry: the last pair of a key decides
    its value. *)
Lemma dict_of_fold (pairs : list (string * option string))
    (d : gmap string (option string)) (k : string) :
  fold_left (fun d kv => <[kv.1 := kv.2]> d) pairs d !! k
  = match list_find (fun kv => kv.1 = k) (reverse pairs) with
    | Some (_, kv) => Some kv.2
    | None => d !! k
    end.
Proof.
  revert d. induction pairs as [|[k' v'] pairs IH]; intros d; [done|].
  simpl. rewrite IH. rewrite reverse_cons.
  destruct (list_find (fun kv => kv.1 = k) (reverse pairs)) as [[i kv]|] eqn:Hf.
  - erewrite list_find_app_l by done. done.
  - rewrite list_find_app_r by done. simpl.
    destruct (decide (k' = k)) as [->|Hne]; simpl.
    + by rewrite lookup_insert_eq.
    + by rewrite lookup_insert_ne.
Qed.

Lemma dict_of_fold_other (pairs : list (string * option string))
    (d : gmap string (option string)) (k : string) :
  k ∉ pairs.*1 ->
  fold_left (fun d kv => <[kv.1 := kv.2]> d) pairs d !! k = d !! k.
Proof.
  revert d. induction pairs as [|[k' v'] pairs IH]; intros d Hk; [done|].
  simpl in *. apply not_elem_of_cons in Hk as [Hne Hk].
  rewrite IH by done. apply lookup_insert_ne. congruence.
Qed.

(** With pairwise distinct keys, the dict maps the key at each position to
    the value at the same position. *)
Lemma dict_of_zip_lookup (ks : list string) (vs : list (option string))
    (i : nat) (k : string) (v : option string) :
  NoDup ks -> ks !! i = Some k -> vs !! i = Some v ->
  dict_of (zip ks vs) !! k = Some v.
Proof.
  unfold dict_of. generalize (∅ : gmap string (option string)).
  revert vs i. induction ks as [|k0 ks IH]; intros vs i d Hnd Hk Hv; [done|].
  destruct vs as [|v0 vs]; [done|]. apply NoDup_cons in Hnd as [Hk0 Hnd].
  destruct i as [|i]; simpl in *.
  - injection Hk as ->. injection Hv as ->.
    rewrite dict_of_fold_other; [apply lookup_insert_eq|].
    intros Hin. apply Hk0. apply list_elem_of_fmap in Hin as [[k1 v1] [-> Hin]].
    apply elem_of_zip_l in Hin. done.
  - by eapply IH.
Qed.

(** A key that was not listed is not in the dict. *)
Lemma dict_of_zip_lookup_None (ks : list string) (vs : list (option string))
    (k : string) :
  k ∉ ks -> dict_of (zip ks vs) !! k = None.
Proof.
  intros Hk. unfold dict_of. rewrite dict_of_fold_other; [done|].
  intros Hin. apply Hk. apply list_elem_of_fmap in Hin as [[k1 v1] [-> Hin]].
  by apply elem_of_zip_l in Hin.
Qed.

End AsyncRedisService_properties.

(** ** The reference backend *)
Section RefStore_properties.
Import RefStore.

(** A string written under a string key is what a [get] of that key finds. *)
Lemma ref_set_then_get c (k v : string) ex (s s' : store) b :
  ref_set c (PStr k) (PStr v) ex s = (Ok b, s') ->
  ref_get c (PStr k) s' = (Ok (Some v), s').
Proof.
  unfold ref_set, ref_get, with_key. simpl.
  destruct ex as [n|]; [destruct (Z.leb n 0); [discriminate|]|];
    intros [= <- <-]; by rewrite lookup_insert_eq.
Qed.

(** Writes to other keys leave a key as it was. *)
Lemma ref_set_other c (k k' : string) v ex (s s' : store) b :
  k <> k' ->
  ref_set c (PStr k') v ex s = (Ok b, s') ->
  ref_get c (PStr k) s' = (fst (ref_get c (PStr k) s), s').
Proof.
  intros Hne. unfold ref_set, ref_get, with_key. simpl.
  destruct (encode v) as [v'|]; [|discriminate].
  destruct ex as [n|]; [destruct (Z.leb n 0); [discriminate|]|];
    intros [= <- <-]; by rewrite lookup_insert_ne.
Qed.

(** On the empty server every key is absent. *)
Lemma ref_get_empty c (k : string) :
  ref_get c (PStr k) (∅ : store) = (Ok None, (∅ : store)).
Proof. unfold ref_get, with_key. simpl. by rewrite lookup_empty. Qed.

(** [EXISTS] of one key answers 0 or 1. *)
Lemma ref_exists_count c k (s s' : store) n :
  ref_exists c k s = (Ok n, s') -> n = 0 \/ n = 1.
Proof.
  unfold ref_exists, with_key. destruct (encode k) as [k'|]; [|discriminate].
  destruct (s !! k'); intros [= <- <-]; auto.
Qed.

End RefStore_properties.

(** * The claims *)

(** The worlds of the examples: the process at start, and the process of
    [testredis.py] after its [RedisService.initialize(...)]. *)
Definition world_start : World RefStore.backend unit := RefStore.fresh tt.

Definition testredis_client : Redis :=
  RedisDirect "localhost" 6379 (Some "default") (Some "redispw") 0 true.

Definition world_initialized : World RefStore.backend unit :=
  Build_World RefStore.backend unit (∅ : RefStore.store) [] tt 1%nat
              (Some O) (Some testredis_client) None None.

(** ** C1 *)

(** C1, as stated, fails: after the [initialize] of [testredis.py] has
    succeeded and created the client, the same call again returns the
    instance and raises nothing. *)
Lemma initialize_twice_raises_nothing :
  RedisService.initialize "localhost" 6379 (Some "default") (Some "redispw") 0
    world_start = (Ok (Some O), world_initialized) /\
  RedisService_client world_initialized = Some testredis_client /\
  RedisService.initialize "localhost" 6379 (Some "default") (Some "redispw") 0
    world_initialized = (Ok (Some O), world_initialized) /\
  ~ (exists e w',
       RedisService.initialize "localhost" 6379 (Some "default")
         (Some "redispw") 0 world_initialized = (Raise e, w')).
Proof.
  assert (RedisService.initialize "localhost" 6379 (Some "default")
            (Some "redispw") 0 world_initialized
          = (Ok (Some O), world_initialized)) as H2 by (vm_compute; reflexivity).
  split; [vm_compute; reflexivity|].
  split; [reflexivity|].
  split; [exact H2|].
  intros (e & w' & H). rewrite H2 in H. discriminate.
Qed.

(** C1, amended: once a call of [initialize] has succeeded, every later call
    of [initialize], with whatever arguments, returns the instance of the
    first call and leaves the world as it is; nothing is raised. *)
Theorem initialize_again_returns_instance {B U} (w w1 : World B U)
    host port username password db r :
  RedisService.initialize host port username password db w = (Ok r, w1) ->
  forall host' port' username' password' db',
    RedisService.initialize host' port' username' password' db' w1
    = (Ok r, w1).
Proof.
  intros H0 host' port' username' password' db'.
  apply initialize_ok_instance in H0 as [Hi [o ->]].
  by apply initialize_with_instance.
Qed.

Lemma initialize_again_returns_instance_witness :
  RedisService.initialize "localhost" 6379 (Some "default") (Some "redispw") 0
    world_start = (Ok (Some O), world_initialized) /\
  RedisService.initialize "elsewhere" 6380 None None 1 world_initialized
  = (Ok (Some O), world_initialized).
Proof.
  split.
  - vm_compute. reflexivity.
  - apply (initialize_again_returns_instance world_start world_initialized
             "localhost" 6379 (Some "default") (Some "redispw") 0 (Some O)).
    vm_compute. reflexivity.
Defined.

(** ** C2 *)

(** C2, as stated, fails for the asynchronous service: with no pool
    configured, [get_connection] raises the builtin [Exception], which is
    not the [RedisNotInitializedException] of [redis_exceptions.py]. *)
Lemma get_connection_raises_plain_exception :
  self_client world_start = None /\
  AsyncRedisService.get_connection world_start
  = (Raise (Exception
              "Connection pool not set. Call set_connection_pool() first."),
     world_start) /\
  is_NotInitialized
    (Exception "Connection pool not set. Call set_connection_pool() first.")
  = false /\
  (forall status_code detail,
     fst (AsyncRedisService.get_connection world_start)
     <> Raise (RedisNotInitializedException status_code detail)).
Proof.
  split; [reflexivity|].
  split; [vm_compute; reflexivity|].
  split; [reflexivity|].
  intros status_code detail. vm_compute. discriminate.
Qed.

(** C2, amended: [get_instance] of the synchronous service raises
    [RedisNotInitializedException] (status 404, the default detail) while no
    instance is recorded; [get_connection] of the asynchronous service, and
    with it every key-value operation, fails while there is no client, in
    place and without any call on a client, with the builtin [Exception]
    carrying "Connection pool not set. Call set_connection_pool() first.". *)
Theorem uninitialized_services_fail {B U} (ws wa : World B U) :
  RedisService_instance ws = None ->
  self_client wa = None ->
  RedisService.get_instance ws
  = (Raise (RedisNotInitializedException 404
              "RedisService not initialized. Call `initialize()` first"), ws) /\
  AsyncRedisService.get_connection wa = (Raise pool_not_set, wa) /\
  (forall key, AsyncRedisService.get key wa = (Raise pool_not_set, wa)) /\
  (forall key value expire,
     AsyncRedisService.set key value expire wa = (Raise pool_not_set, wa)) /\
  (forall keys, AsyncRedisService.mget keys wa = (Raise pool_not_set, wa)) /\
  (forall mapping,
     AsyncRedisService.mset mapping wa = (Raise pool_not_set, wa)) /\
  (forall pattern,
     AsyncRedisService.get_by_pattern pattern wa = (Raise pool_not_set, wa)) /\
  (forall key, AsyncRedisService.delete key wa = (Raise pool_not_set, wa)) /\
  (forall key, AsyncRedisService.exists_ key wa = (Raise pool_not_set, wa)) /\
  (forall pattern,
     AsyncRedisService.keys pattern wa = (Raise pool_not_set, wa)) /\
  AsyncRedisService.flushdb wa = (Raise pool_not_set, wa) /\
  AsyncRedisService.pipeline wa = (Raise pool_not_set, wa).
Proof.
  intros Hs Ha.
  split; [by apply get_instance_without_instance|].
  split; [by apply get_connection_without_client|].
  repeat split; intros; by apply needs_connection_without_client.
Qed.

Lemma uninitialized_services_fail_witness :
  RedisService.get_instance world_start
  = (Raise (RedisNotInitializedException 404
              "RedisService not initialized. Call `initialize()` first"),
     world_start) /\
  AsyncRedisService.get (PStr "foo") world_start
  = (Raise pool_not_set, world_start).
Proof.
  destruct (uninitialized_services_fail world_start world_start)
    as (Hs & _ & Hg & _); [reflexivity | reflexivity |].
  split; [exact Hs | exact (Hg (PStr "foo"))].
Defined.

(** ** C3 *)

(** C3, as stated, fails for the synchronous service: after [close], the
    client and the instance are still recorded, [get_instance] returns the
    instance and a [get] is answered. *)
Lemma close_leaves_service_initialized :
  exists w,
    RedisService.close O world_initialized = (Ok tt, w) /\
    RedisService_client w = Some testredis_client /\
    RedisService_instance w = Some O /\
    RedisService.get_instance w = (Ok O, w) /\
    fst (RedisService.get O (PStr "mykey") w) = Ok None.
Proof.
  eexists. split; [vm_compute; reflexivity|].
  split; [reflexivity|]. split; [reflexivity|].
  split; vm_compute; reflexivity.
Qed.

(** C3, amended: after an [aclose] of the asynchronous service that
    returns, [_pool] and [_client] are [None] and [get_connection] fails
    with the builtin [Exception] of C2; a [set_connection_pool] that returns
    makes [get_connection] return the client of the new pool, one that
    raises leaves the service without pool, and it returns unless its
    keywords repeat [decode_responses] or [max_connections] is negative; the
    world a managed block leaves is the one this [aclose] leaves after the
    block's body.  The [close] of the synchronous service makes one [close]
    call on the client, if there is one, and leaves [_client] and
    [_instance] as they were. *)
Theorem aclose_reverts_to_no_pool {B U} (w w' : World B U) :
  AsyncRedisService.aclose w = (Ok tt, w') ->
  self_pool w' = None /\
  self_client w' = None /\
  AsyncRedisService.get_connection w' = (Raise pool_not_set, w') /\
  (forall host port db password maxc kwargs r w'',
     AsyncRedisService.set_connection_pool host port db password maxc kwargs w'
     = (r, w'') ->
     match r with
     | Ok _ =>
         AsyncRedisService.get_connection w''
         = (Ok (RedisPooled
                  {| pool_host := host; pool_port := port; pool_db := db;
                     pool_password := password; max_connections := maxc;
                     pool_decode_responses := true; pool_kwargs := kwargs |}),
            w'')
     | Raise _ =>
         w'' = w' /\
         AsyncRedisService.get_connection w'' = (Raise pool_not_set, w'')
     end) /\
  (forall host port db password maxc kwargs,
     AsyncRedisService.names_decode_responses kwargs = false ->
     0 <= maxc ->
     exists w'',
       AsyncRedisService.set_connection_pool
         host port db password maxc kwargs w'
       = (Ok tt, w'')) /\
  (forall A (body : M (World B U) A) w0 rb,
     body w0 = (rb, w) ->
     AsyncRedisService.async_with body w0 = (rb, w')) /\
  (forall (ws : World B U) self,
     RedisService.close self ws
     = match RedisService_client ws with
       | Some c =>
           (fst (redis_close B c (srv ws)),
            set_srv_trace (snd (redis_close B c (srv ws)))
                          (trace ws ++ [CClose c]) ws)
       | None => (Ok tt, ws)
       end) /\
  (forall (ws : World B U) self,
     RedisService_instance (snd (RedisService.close self ws))
     = RedisService_instance ws /\
     RedisService_client (snd (RedisService.close self ws))
     = RedisService_client ws).
Proof.
  intros Hx. destruct (aclose_ok_clears w w' Hx) as [Hp Hc].
  split; [done|]. split; [done|].
  split; [by apply get_connection_without_client|].
  split.
  { intros host port db password maxc kwargs r w'' Hs.
    destruct (AsyncRedisService.names_decode_responses kwargs) eqn:Hk.
    - assert (exists e, AsyncRedisService.set_connection_pool
                host port db password maxc kwargs w' = (Raise e, w'))
        as [e He] by (apply set_connection_pool_raises; auto).
      rewrite He in Hs. injection Hs as <- <-.
      split; [done|]. by apply get_connection_without_client.
    - destruct (Z.ltb_spec maxc 0) as [Hm|Hm].
      + assert (exists e, AsyncRedisService.set_connection_pool
                  host port db password maxc kwargs w' = (Raise e, w'))
          as [e He] by (apply set_connection_pool_raises; auto).
        rewrite He in Hs. injection Hs as <- <-.
        split; [done|]. by apply get_connection_without_client.
      + destruct (set_connection_pool_then_get_connection
                    w' host port db password maxc kwargs Hk Hm)
          as (p & w1 & -> & Hs1 & _ & _ & _ & _ & Hg).
        rewrite Hs1 in Hs. injection Hs as <- <-. exact Hg. }
  split.
  { intros host port db password maxc kwargs Hk Hm.
    destruct (set_connection_pool_then_get_connection
                w' host port db password maxc kwargs Hk Hm)
      as (p & w1 & _ & Hs1 & _).
    eauto. }
  split.
  { intros A body w0 rb Hb. by eapply async_with_result. }
  split.
  { intros ws self. unfold RedisService.close. run.
    destruct (RedisService_client ws) as [c|]; [|done].
    by destruct (redis_close B c (srv ws)). }
  intros ws self. apply close_keeps_attributes.
Qed.

(** The process of [main()] in [redis_async_service.py] once its pool is
    configured with [max_connections=200], and after [aclose]. *)
Definition main_pool : ConnectionPool :=
  {| pool_host := "localhost"; pool_port := 6379; pool_db := 0;
     pool_password := None; max_connections := 200;
     pool_decode_responses := true; pool_kwargs := [] |}.

Definition world_pooled : World RefStore.backend unit :=
  Build_World RefStore.backend unit (∅ : RefStore.store) [] tt O
              None None (Some main_pool) (Some (RedisPooled main_pool)).

Definition world_closed : World RefStore.backend unit :=
  Build_World RefStore.backend unit (∅ : RefStore.store)
              [CAclose (RedisPooled main_pool); CPoolAclose main_pool] tt O
              None None None None.

Lemma aclose_reverts_to_no_pool_witness :
  AsyncRedisService.aclose world_pooled = (Ok tt, world_closed) /\
  AsyncRedisService.get_connection world_closed
  = (Raise pool_not_set, world_closed).
Proof.
  assert (AsyncRedisService.aclose world_pooled = (Ok tt, world_closed))
    as Hx by (vm_compute; reflexivity).
  split; [exact Hx|].
  exact (proj1 (proj2 (proj2
           (aclose_reverts_to_no_pool world_pooled world_closed Hx)))).
Defined.

(** ** C4 *)

(** C4: [set_decorator] given a string key returns the decorator, and the
    wrapper it makes of a function, on every call and whatever the server
    holds, runs the function, then makes one call on the client, the [set]
    of the function's result under that key with the given expiry, and
    returns the function's result; no read is made. *)
Theorem memoize_is_write_through {B U}
    (funcs : nat -> AsyncRedisService.pyargs -> M (World B U) pyval)
    (k : string) (expire : option Z) (f : nat)
    (args : AsyncRedisService.pyargs) (w w1 : World B U)
    (r : pyval) (c : Redis) (b : bool) (s2 : Srv B) :
  funcs f args w = (Ok r, w1) ->
  self_client w1 = Some c ->
  redis_set B c (PStr k) r expire (srv w1) = (Ok b, s2) ->
  exists d,
    AsyncRedisService.set_decorator funcs (PStr k) expire
    = AsyncRedisService.Decorator d /\
    d (PFunc f) args w
    = (Ok r, set_srv_trace s2 (trace w1 ++ [CSet c (PStr k) r expire]) w1).
Proof.
  intros Hf Hc Hs. eexists. split; [reflexivity|].
  unfold AsyncRedisService.decorator.
  rewrite (wrapper_run funcs (PStr k) expire f args w r w1 c Hf Hc).
  by rewrite Hs.
Qed.

(** An operation that answers "r1" on its first call and "r2" afterwards,
    counting its calls in the application state. *)
Definition r1_then_r2 (f : nat) (args : AsyncRedisService.pyargs)
  : M (World RefStore.backend nat) pyval :=
  fun w =>
    (Ok (PStr (match usr w with O => "r1" | S _ => "r2" end)),
     Build_World RefStore.backend nat (srv w) (trace w) (S (usr w))
                 (next_obj w) (RedisService_instance w)
                 (RedisService_client w) (self_pool w) (self_client w)).

Definition world_counting : World RefStore.backend nat :=
  Build_World RefStore.backend nat (∅ : RefStore.store) [] O O
              None None (Some main_pool) (Some (RedisPooled main_pool)).

Definition world_counted : World RefStore.backend nat :=
  Build_World RefStore.backend nat (∅ : RefStore.store) [] 1%nat O
              None None (Some main_pool) (Some (RedisPooled main_pool)).

Lemma memoize_is_write_through_witness :
  exists d,
    AsyncRedisService.set_decorator r1_then_r2 (PStr "fixed-key") (Some 60)
    = AsyncRedisService.Decorator d /\
    d (PFunc O) ([], []) world_counting
    = (Ok (PStr "r1"),
       set_srv_trace (B := RefStore.backend)
         (<["fixed-key" := ("r1", Some 60)]> (∅ : RefStore.store))
         [CSet (RedisPooled main_pool) (PStr "fixed-key") (PStr "r1") (Some 60)]
         world_counted).
Proof.
  exact (memoize_is_write_through (B := RefStore.backend)
           r1_then_r2 "fixed-key" (Some 60) O ([], [])
           world_counting world_counted (PStr "r1") (RedisPooled main_pool)
           true (<["fixed-key" := ("r1", Some 60)]> (∅ : RefStore.store))
           eq_refl eq_refl eq_refl).
Defined.

(** The test of the specification: after each call of the memoized operation
    a [get] of the key finds the result of that call. *)
Example memoize_r1_then_r2 :
  let wr := AsyncRedisService.wrapper r1_then_r2 (PStr "fixed-key") None
              (PFunc O) ([], []) in
  fst (bind wr (fun r => bind (AsyncRedisService.get (PStr "fixed-key"))
                              (fun g => ret (r, g))) world_counting)
  = Ok (PStr "r1", Some "r1") /\
  fst (bind wr (fun _ =>
       bind wr (fun r => bind (AsyncRedisService.get (PStr "fixed-key"))
                              (fun g => ret (r, g)))) world_counting)
  = Ok (PStr "r2", Some "r2").
Proof. split; vm_compute; reflexivity. Qed.

(** ** C5 *)


Definition ns_store : RefStore.store :=
  <["ns:1" := ("x", None)]> (<["ns:2" := ("y", None)]> ∅).

Definition world_ns : World RefStore.backend unit :=
  Build_World RefStore.backend unit ns_store [] tt O
              None None (Some main_pool) (Some (RedisPooled main_pool)).


(** The test of the specification, on a server holding "ns:1" and "ns:2". *)
Example get_by_pattern_ns :
  fst (AsyncRedisService.get_by_pattern (PStr "ns:*") world_ns)
  = Ok (<["ns:1" := Some "x"]> (<["ns:2" := Some "y"]> ∅)) /\
  trace (snd (AsyncRedisService.get_by_pattern (PStr "zz:*") world_ns))
  = [CKeys (RedisPooled main_pool) (PStr "zz:*")].
Proof. split; vm_compute; reflexivity. Qed.

(** ** C6 *)

(** C6: with a client configured and the count [n] answered by the client's
    [exists], the service's [exists] returns [true] exactly when [n] is 1. *)
Theorem exists_compares_count_to_one {B U} (w : World B U)
    (key : pyval) (c : Redis) (n : Z) (s1 : Srv B) :
  self_client w = Some c ->
  redis_exists B c key (srv w) = (Ok n, s1) ->
  exists b,
    AsyncRedisService.exists_ key w
    = (Ok b, set_srv_trace s1 (trace w ++ [CExists c key]) w) /\
    (b = true <-> n = 1).
Proof.
  intros Hc He. exists (Z.eqb n 1). split.
  - unfold AsyncRedisService.exists_.
    rewrite (needs_connection_with_client _ w c Hc). run. by rewrite He.
  - apply Z.eqb_eq.
Qed.

(** A backend whose [exists] answers 2 for every key, as the count of a key
    named twice would be; everything else is the reference backend. *)
Definition counting_twice : Backend :=
  {| Srv := RefStore.store;
     redis_get := RefStore.ref_get;
     redis_set := RefStore.ref_set;
     redis_mget := RefStore.ref_mget;
     redis_mset := RefStore.ref_mset;
     redis_keys := RefStore.ref_keys;
     redis_delete := RefStore.ref_delete;
     redis_exists := fun _ _ s => (Ok 2, s);
     redis_flushdb := fun _ _ => (Ok true, ∅);
     redis_close := fun _ s => (Ok tt, s);
     redis_aclose := fun _ s => (Ok tt, s);
     pool_aclose := fun _ s => (Ok tt, s) |}.

Definition world_counting_twice : World counting_twice unit :=
  Build_World counting_twice unit ns_store [] tt O
              None None (Some main_pool) (Some (RedisPooled main_pool)).

Lemma exists_compares_count_to_one_witness :
  (exists b,
     AsyncRedisService.exists_ (PStr "ns:1") world_ns
     = (Ok b,
        set_srv_trace (B := RefStore.backend) ns_store
          [CExists (RedisPooled main_pool) (PStr "ns:1")] world_ns) /\
     (b = true <-> 1 = 1)) /\
  (exists b,
     AsyncRedisService.exists_ (PStr "ns:1") world_counting_twice
     = (Ok b,
        set_srv_trace (B := counting_twice) ns_store
          [CExists (RedisPooled main_pool) (PStr "ns:1")]
          world_counting_twice) /\
     (b = true <-> 2 = 1)).
Proof.
  split.
  - apply (exists_compares_count_to_one (B := RefStore.backend)
             world_ns (PStr "ns:1") (RedisPooled main_pool) 1 ns_store).
    + reflexivity.
    + vm_compute. reflexivity.
  - apply (exists_compares_count_to_one (B := counting_twice)
             world_counting_twice (PStr "ns:1") (RedisPooled main_pool) 2
             ns_store).
    + reflexivity.
    + reflexivity.
Defined.

Example exists_count_two_is_false :
  fst (AsyncRedisService.exists_ (PStr "ns:1") world_counting_twice) = Ok false.
Proof. reflexivity. Qed.

(** ** C7 *)

(** What the round trip asks of the server: a string stored under a string
    key by a [set] that returned is what a [get] of that key answers next. *)
Definition set_then_get_law (B : Backend) : Prop :=
  forall c (k v : string) ex s b s',
    redis_set B c (PStr k) (PStr v) ex s = (Ok b, s') ->
    fst (redis_get B c (PStr k) s') = Ok (Some v).

Lemma RefStore_set_then_get_law : set_then_get_law RefStore.backend.
Proof.
  intros c k v ex s b s' Hs.
  change (RefStore.ref_set c (PStr k) (PStr v) ex s = (Ok b, s')) in Hs.
  change (fst (RefStore.ref_get c (PStr k) s') = Ok (Some v)).
  by rewrite (ref_set_then_get c k v ex s s' b Hs).
Qed.

(** C7: over a server that keeps what it is given, a [set] of a string
    under a key that returned is followed by a [get] of that key returning
    the string, in the synchronous and in the asynchronous service; and a
    [get] of a key the server has nothing for returns [None], not an
    exception. *)
Theorem set_then_get_round_trip {B U} (w w1 : World B U)
    (k v : string) (ex : option Z) (self : obj) :
  set_then_get_law B ->
  (RedisService.set self (PStr k) (PStr v) ex w = (Ok tt, w1) ->
   fst (RedisService.get self (PStr k) w1) = Ok (Some v)) /\
  (forall b,
     AsyncRedisService.set (PStr k) (PStr v) ex w = (Ok b, w1) ->
     fst (AsyncRedisService.get (PStr k) w1) = Ok (Some v)) /\
  (forall c,
     RedisService_client w = Some c ->
     fst (redis_get B c (PStr k) (srv w)) = Ok None ->
     fst (RedisService.get self (PStr k) w) = Ok None) /\
  (forall c,
     self_client w = Some c ->
     fst (redis_get B c (PStr k) (srv w)) = Ok None ->
     fst (AsyncRedisService.get (PStr k) w) = Ok None).
Proof.
  intros Hlaw. split; [|split; [|split]].
  - unfold RedisService.set, RedisService.client_attr. run.
    destruct (RedisService_client w) as [c|] eqn:Hc; simpl; [|discriminate].
    destruct (redis_set B c (PStr k) (PStr v) ex (srv w)) as [[b|e] s] eqn:Hs;
      simpl; [|discriminate].
    intros [= <-]. rewrite (get_with_client _ c) by done. simpl.
    by eapply Hlaw.
  - intros b. unfold AsyncRedisService.set, AsyncRedisService.get.
    destruct (self_client w) as [c|] eqn:Hc.
    + rewrite (needs_connection_with_client _ w c Hc). run.
      destruct (redis_set B c (PStr k) (PStr v) ex (srv w)) as [[b'|e] s] eqn:Hs;
        simpl; [|discriminate].
      intros [= <- <-].
      rewrite (get_connection_with_client _ c) by exact Hc. simpl.
      pose proof (Hlaw c k v ex (srv w) b' s Hs) as Hg.
      by destruct (redis_get B c (PStr k) s) as [rg sg].
    + rewrite (needs_connection_without_client _ w Hc). discriminate.
  - intros c Hc Hg. by rewrite (get_with_client _ c).
  - intros c Hc Hg. unfold AsyncRedisService.get.
    rewrite (needs_connection_with_client _ w c Hc). run.
    by destruct (redis_get B c (PStr k) (srv w)) as [rg sg].
Qed.

(** The asynchronous service of [main()] storing a list of entries in turn. *)
Fixpoint set_each {U} (kvs : list (string * string))
  : M (World RefStore.backend U) unit :=
  match kvs with
  | [] => ret tt
  | (k, v) :: kvs' =>
      bind (AsyncRedisService.set (PStr k) (PStr v) None)
           (fun _ => set_each kvs')
  end.

(** On the reference backend, a key that no [set] named is absent however
    many other keys were set: [get] returns [None]. *)
Lemma never_set_key_is_absent {U} (kvs : list (string * string)) (k : string)
    (w : World RefStore.backend U) (c : Redis) :
  self_client w = Some c ->
  (srv w : RefStore.store) !! k = None ->
  k ∉ kvs.*1 ->
  fst (bind (set_each kvs) (fun _ => AsyncRedisService.get (PStr k)) w)
  = Ok None.
Proof.
  revert w. induction kvs as [|[k' v'] kvs IH]; intros w Hc Hk Hin.
  - unfold bind. simpl. unfold AsyncRedisService.get.
    rewrite (needs_connection_with_client _ w c Hc).
    unfold invoke. simpl. unfold RefStore.ref_get, RefStore.with_key. simpl.
    by rewrite Hk.
  - simpl in Hin. apply not_elem_of_cons in Hin as [Hne Hin].
    specialize (IH (set_srv_trace (B := RefStore.backend)
                      (<[k' := (v', None)]> (srv w : RefStore.store))
                      (trace w ++ [CSet c (PStr k') (PStr v') None]) w)).
    simpl in IH. rewrite lookup_insert_ne in IH by congruence.
    specialize (IH Hc Hk Hin).
    unfold bind in *. simpl. unfold AsyncRedisService.set at 1.
    unfold bind. rewrite (get_connection_with_client w c Hc).
    unfold invoke. simpl. exact IH.
Qed.

Lemma set_then_get_round_trip_witness :
  set_then_get_law RefStore.backend /\
  RedisService.set O (PStr "mykey") (PStr "Hello Devendra") (Some 60)
    world_initialized
  = (Ok tt,
     set_srv_trace (B := RefStore.backend)
       (<["mykey" := ("Hello Devendra", Some 60)]> (∅ : RefStore.store))
       [CSet testredis_client (PStr "mykey") (PStr "Hello Devendra") (Some 60)]
       world_initialized) /\
  fst (RedisService.get O (PStr "mykey")
         (set_srv_trace (B := RefStore.backend)
            (<["mykey" := ("Hello Devendra", Some 60)]> (∅ : RefStore.store))
            [CSet testredis_client (PStr "mykey") (PStr "Hello Devendra")
               (Some 60)]
            world_initialized))
  = Ok (Some "Hello Devendra").
Proof.
  split; [exact RefStore_set_then_get_law|].
  split; [reflexivity|].
  apply (set_then_get_round_trip (B := RefStore.backend) world_initialized
           _ "mykey" "Hello Devendra" (Some 60) O RefStore_set_then_get_law).
  reflexivity.
Defined.

(** ** C8 *)

(** C8: given a callable as its key, [set_decorator] returns the wrapper of
    that callable, not the decorator. *)
Theorem set_decorator_bare_returns_wrapper {B U}
    (funcs : nat -> AsyncRedisService.pyargs -> M (World B U) pyval)
    (key : pyval) (expire : option Z) :
  callable key = true ->
  AsyncRedisService.set_decorator funcs key expire
  = AsyncRedisService.Wrapper
      (AsyncRedisService.wrapper funcs key expire key) /\
  (forall d,
     AsyncRedisService.set_decorator funcs key expire
     <> AsyncRedisService.Decorator d).
Proof.
  intros Hk. unfold AsyncRedisService.set_decorator. rewrite Hk. simpl.
  split; [reflexivity | discriminate].
Qed.

Lemma set_decorator_bare_returns_wrapper_witness :
  AsyncRedisService.set_decorator r1_then_r2 (PFunc O) None
  = AsyncRedisService.Wrapper
      (AsyncRedisService.wrapper r1_then_r2 (PFunc O) None (PFunc O)).
Proof.
  exact (proj1 (set_decorator_bare_returns_wrapper
                  r1_then_r2 (PFunc O) None eq_refl)).
Defined.

(** Given anything else, it returns the decorator. *)
Lemma set_decorator_with_key_returns_decorator {B U}
    (funcs : nat -> AsyncRedisService.pyargs -> M (World B U) pyval)
    (key : pyval) (expire : option Z) :
  callable key = false ->
  AsyncRedisService.set_decorator funcs key expire
  = AsyncRedisService.Decorator (AsyncRedisService.decorator funcs key expire).
Proof.
  intros Hk. unfold AsyncRedisService.set_decorator. by rewrite Hk.
Qed.

(** ** C10 *)

(** C10: the wrapper that the bare use of [set_decorator] makes of a
    function passes, on every call on which the function returns and a
    client is configured, the function object itself as the key of the
    client's [set], with the function's result as the value and no expiry. *)
Theorem bare_wrapper_stores_under_function_object {B U}
    (funcs : nat -> AsyncRedisService.pyargs -> M (World B U) pyval)
    (f : nat) (args : AsyncRedisService.pyargs) (w w1 : World B U)
    (r : pyval) (c : Redis) :
  funcs f args w = (Ok r, w1) ->
  self_client w1 = Some c ->
  exists wr,
    AsyncRedisService.set_decorator funcs (PFunc f) None
    = AsyncRedisService.Wrapper wr /\
    trace (snd (wr args w)) = (trace w1 ++ [CSet c (PFunc f) r None])%list /\
    srv (snd (wr args w)) = snd (redis_set B c (PFunc f) r None (srv w1)) /\
    fst (wr args w)
    = match fst (redis_set B c (PFunc f) r None (srv w1)) with
      | Ok _ => Ok r
      | Raise e => Raise e
      end.
Proof.
  intros Hf Hc. eexists. split; [reflexivity|].
  unfold AsyncRedisService.decorator.
  rewrite (wrapper_run funcs (PFunc f) None f args w r w1 c Hf Hc).
  done.
Qed.

Lemma bare_wrapper_stores_under_function_object_witness :
  exists wr,
    AsyncRedisService.set_decorator r1_then_r2 (PFunc O) None
    = AsyncRedisService.Wrapper wr /\
    trace (snd (wr ([], []) world_counting))
    = [CSet (RedisPooled main_pool) (PFunc O) (PStr "r1") None] /\
    fst (wr ([], []) world_counting) = Raise RefStore.DataError.
Proof.
  destruct (bare_wrapper_stores_under_function_object (B := RefStore.backend)
              r1_then_r2 O ([], []) world_counting world_counted (PStr "r1")
              (RedisPooled main_pool) eq_refl eq_refl)
    as (wr & Hd & Ht & _ & Hr).
  exists wr. split; [exact Hd|]. split; [exact Ht | exact Hr].
Defined.

(** * Sequences of calls on [RedisService] *)

(** One call a caller can make on the class or on an instance it holds; an
    exception of a call is the caller's to handle, the world goes on from
    where the call left it. *)
Inductive sync_call : Type :=
| CallNew (host : string) (port : Z) (username password : option string) (db : Z)
| CallInitialize (host : string) (port : Z) (username password : option string)
                 (db : Z)
| CallGetInstance
| CallSet (self : obj) (key value : pyval) (ex : option Z)
| CallGet (self : obj) (key : pyval)
| CallClose (self : obj).

Definition sync_step {B U} (call : sync_call) (w : World B U) : World B U :=
  match call with
  | CallNew host port username password db =>
      snd (RedisService.new host port username password db w)
  | CallInitialize host port username password db =>
      snd (RedisService.initialize host port username password db w)
  | CallGetInstance => snd (RedisService.get_instance w)
  | CallSet self key value ex => snd (RedisService.set self key value ex w)
  | CallGet self key => snd (RedisService.get self key w)
  | CallClose self => snd (RedisService.close self w)
  end.

Definition sync_run {B U} (calls : list sync_call) (w : World B U) : World B U :=
  fold_left (fun w call => sync_step call w) calls w.

(** An instance is recorded only together with a client. *)
Definition instance_has_client {B U} (w : World B U) : Prop :=
  is_Some (RedisService_instance w) -> is_Some (RedisService_client w).

Section RedisService_sequences.
Context {B : Backend} {U : Type}.
Implicit Types w : World B U.

Lemma invoke_keeps_attributes {A} cmd (h : Srv B -> result A * Srv B) w :
  RedisService_instance (snd (invoke (U := U) cmd h w)) = RedisService_instance w /\
  RedisService_client (snd (invoke cmd h w)) = RedisService_client w /\
  self_pool (snd (invoke cmd h w)) = self_pool w /\
  self_client (snd (invoke cmd h w)) = self_client w.
Proof. unfold invoke. by destruct (h (srv w)). Qed.

(** What a call can do to the two class attributes: [_instance] goes from
    [None] to an object only where there was no client and there is one
    afterwards, and [_client] changes only from [None]. *)
Lemma sync_step_attributes call w :
  (RedisService_instance (sync_step call w) = RedisService_instance w \/
   RedisService_instance w = None /\ RedisService_client w = None /\
   is_Some (RedisService_client (sync_step call w))) /\
  (RedisService_client (sync_step call w) = RedisService_client w \/
   RedisService_client w = None).
Proof.
  destruct call as [h p u pw d|h p u pw d| |self k v ex|self k|self]; simpl.
  - unfold RedisService.new, RedisService.__init__. run.
    destruct (RedisService_client w) as [c|] eqn:Hc; simpl; rewrite ?Hc; auto.
  - unfold RedisService.initialize, RedisService.new, RedisService.__init__. run.
    destruct (RedisService_instance w) as [o|] eqn:Hi; simpl.
    + rewrite Hi. simpl. auto.
    + destruct (RedisService_client w) as [c|] eqn:Hc; simpl; rewrite ?Hc;
        eauto 6.
  - unfold RedisService.get_instance. run.
    destruct (RedisService_instance w) eqn:Hi; simpl; rewrite ?Hi; auto.
  - unfold RedisService.set, RedisService.client_attr. run.
    destruct (RedisService_client w) as [c|] eqn:Hc; simpl; rewrite ?Hc; auto.
    destruct (redis_set B c k v ex (srv w)) as [[b|e] s]; simpl; rewrite ?Hc;
      auto.
  - unfold RedisService.get, RedisService.client_attr. run.
    destruct (RedisService_client w) as [c|] eqn:Hc; simpl; rewrite ?Hc; auto.
    destruct (redis_get B c k (srv w)) as [[b|e] s]; simpl; rewrite ?Hc; auto.
  - destruct (close_keeps_attributes w self) as [-> ->]. auto.
Qed.

Lemma sync_step_instance_has_client call w :
  instance_has_client w -> instance_has_client (sync_step call w).
Proof.
  unfold instance_has_client. intros Hinv Hi.
  destruct (sync_step_attributes call w) as [[Hi'|(_ & _ & Hc')] [Hc|Hc]];
    try done.
  - rewrite Hc. apply Hinv. by rewrite <- Hi'.
  - rewrite Hi' in Hi. apply Hinv in Hi. rewrite Hc in Hi. by destruct Hi.
Qed.

Lemma sync_run_instance_has_client calls w :
  instance_has_client w -> instance_has_client (sync_run calls w).
Proof.
  revert w. induction calls as [|call calls IH]; intros w Hinv; [done|].
  simpl. apply IH. by apply sync_step_instance_has_client.
Qed.

Lemma sync_step_keeps_client call w c :
  RedisService_client w = Some c ->
  RedisService_client (sync_step call w) = Some c.
Proof.
  intros Hc. destruct (sync_step_attributes call w) as [_ [H|H]]; congruence.
Qed.

Lemma sync_step_keeps_instance call w o :
  RedisService_instance w = Some o ->
  RedisService_instance (sync_step call w) = Some o.
Proof.
  intros Hi. destruct (sync_step_attributes call w) as [[H|[H _]] _]; congruence.
Qed.

(** With a client and no instance, no call records an instance. *)
Lemma sync_step_stays_without_instance call w c :
  RedisService_client w = Some c -> RedisService_instance w = None ->
  RedisService_instance (sync_step call w) = None.
Proof.
  intros Hc Hi.
  destruct (sync_step_attributes call w) as [[H|(_ & H & _)] _]; congruence.
Qed.

End RedisService_sequences.

(** Direct construction, which records a client and no instance, shuts
    [initialize] out for good: whatever calls follow, [initialize] raises
    [RedisAlreadyInitializedException] and [get_instance] raises
    [RedisNotInitializedException]. *)
Theorem direct_construction_blocks_initialize {B U} (w w1 : World B U)
    host port username password db (o : obj) (calls : list sync_call) :
  RedisService_instance w = None ->
  RedisService.new host port username password db w = (Ok o, w1) ->
  (forall host' port' username' password' db',
     fst (RedisService.initialize host' port' username' password' db'
            (sync_run calls w1))
     = Raise (RedisAlreadyInitializedException 404
                "RedisService is already initialized.")) /\
  fst (RedisService.get_instance (sync_run calls w1))
  = Raise (RedisNotInitializedException 404
             "RedisService not initialized. Call `initialize()` first").
Proof.
  intros Hi Hn.
  assert (exists c, RedisService_client w1 = Some c /\
                    RedisService_instance w1 = None) as (c & Hc1 & Hi1).
  { revert Hn. unfold RedisService.new, RedisService.__init__. run.
    destruct (RedisService_client w) as [c|]; simpl; [discriminate|].
    intros [= <- <-]. simpl. eauto. }
  clear Hn Hi.
  assert (RedisService_client (sync_run calls w1) = Some c /\
          RedisService_instance (sync_run calls w1) = None) as [Hc Hi].
  { revert w1 Hc1 Hi1. induction calls as [|call calls IH]; intros w1 Hc1 Hi1;
      [done|].
    simpl. apply IH.
    - by apply sync_step_keeps_client.
    - by eapply sync_step_stays_without_instance. }
  split.
  - intros host' port' username' password' db'.
    unfold RedisService.initialize, RedisService.new, RedisService.__init__.
    run. rewrite Hi. simpl. by rewrite Hc.
  - by rewrite get_instance_without_instance.
Qed.

Lemma direct_construction_blocks_initialize_witness :
  fst (RedisService.initialize "localhost" 6379 None None 0
         (sync_run [CallSet O (PStr "k") (PStr "v") None; CallClose O]
            (snd (RedisService.new "localhost" 6379 None None 0 world_start))))
  = Raise (RedisAlreadyInitializedException 404
             "RedisService is already initialized.").
Proof.
  exact (proj1 (direct_construction_blocks_initialize
                  world_start
                  (snd (RedisService.new "localhost" 6379 None None 0
                          world_start))
                  "localhost" 6379 None None 0 O
                  [CallSet O (PStr "k") (PStr "v") None; CallClose O]
                  eq_refl eq_refl)
               "localhost" 6379 None None 0).
Defined.

(** From a world where an instance is recorded only together with a
    client, as at the start of the process, every sequence of calls leads
    to a world where an instance that [get_instance] returns has a client
    behind it: [get] and [set] on it make their call on that client and
    return what it answers. *)
Theorem get_instance_gives_usable_service {B U} (w : World B U)
    (calls : list sync_call) (o : obj) :
  instance_has_client w ->
  fst (RedisService.get_instance (sync_run calls w)) = Ok o ->
  exists c,
    RedisService_client (sync_run calls w) = Some c /\
    (forall key,
       RedisService.get o key (sync_run calls w)
       = (fst (redis_get B c key (srv (sync_run calls w))),
          set_srv_trace (snd (redis_get B c key (srv (sync_run calls w))))
            (trace (sync_run calls w) ++ [CGet c key]) (sync_run calls w))) /\
    (forall key value ex,
       RedisService.set o key value ex (sync_run calls w)
       = (match fst (redis_set B c key value ex (srv (sync_run calls w))) with
          | Ok _ => Ok tt
          | Raise e => Raise e
          end,
          set_srv_trace
            (snd (redis_set B c key value ex (srv (sync_run calls w))))
            (trace (sync_run calls w) ++ [CSet c key value ex])
            (sync_run calls w))).
Proof.
  intros Hinv Hg.
  pose proof (sync_run_instance_has_client calls w Hinv) as Hinv'.
  set (w' := sync_run calls w) in *.
  assert (is_Some (RedisService_instance w')) as Hi.
  { revert Hg. unfold RedisService.get_instance. run.
    destruct (RedisService_instance w'); [eauto | discriminate]. }
  destruct (Hinv' Hi) as [c Hc]. exists c. split; [done|]. split.
  - intros key. by apply get_with_client.
  - intros key value ex. by apply set_with_client.
Qed.

Lemma get_instance_gives_usable_service_witness :
  exists c,
    RedisService_client
      (sync_run [CallInitialize "localhost" 6379 None None 0; CallClose O]
         world_start) = Some c /\
    fst (RedisService.get O (PStr "mykey")
           (sync_run [CallInitialize "localhost" 6379 None None 0; CallClose O]
              world_start)) = Ok None.
Proof.
  destruct (get_instance_gives_usable_service (B := RefStore.backend)
              world_start
              [CallInitialize "localhost" 6379 None None 0; CallClose O] O)
    as (c & Hc & Hg & _).
  - intros [o Ho]. discriminate.
  - reflexivity.
  - exists c. split; [exact Hc|]. rewrite (Hg (PStr "mykey")).
    injection Hc as <-. reflexivity.
Defined.

(** Nothing replaces or clears what the first construction recorded: a
    client, with its connection parameters, and an instance stay the same
    through every sequence of calls, [close] and later [initialize] calls
    with other arguments included. *)
Theorem client_and_instance_are_never_replaced {B U} (w : World B U)
    (calls : list sync_call) :
  (forall c, RedisService_client w = Some c ->
             RedisService_client (sync_run calls w) = Some c) /\
  (forall o, RedisService_instance w = Some o ->
             RedisService_instance (sync_run calls w) = Some o).
Proof.
  revert w. induction calls as [|call calls IH]; intros w; [done|].
  simpl. destruct (IH (sync_step call w)) as [IHc IHi]. split.
  - intros c Hc. apply IHc. by apply sync_step_keeps_client.
  - intros o Hi. apply IHi. by apply sync_step_keeps_instance.
Qed.

Lemma client_and_instance_are_never_replaced_witness :
  RedisService_client
    (sync_run [CallClose O; CallInitialize "elsewhere" 6380 None None 1;
               CallNew "elsewhere" 6380 None None 1] world_initialized)
  = Some testredis_client.
Proof.
  exact (proj1 (client_and_instance_are_never_replaced world_initialized
                  [CallClose O; CallInitialize "elsewhere" 6380 None None 1;
                   CallNew "elsewhere" 6380 None None 1])
               testredis_client eq_refl).
Defined.

(** * The exceptions of [redis_exceptions.py] *)

(** Both exceptions carry status 404 and a detail that is never empty: the
    message given when it is not the empty string, the class's own sentence
    otherwise. *)
Theorem redis_exceptions_detail (error_message : string) :
  exists d1 d2,
    new_RedisNotInitializedException error_message
    = RedisNotInitializedException 404 d1 /\
    new_RedisAlreadyInitializedException error_message
    = RedisAlreadyInitializedException 404 d2 /\
    d1 <> "" /\ d2 <> "" /\
    (error_message <> "" -> d1 = error_message /\ d2 = error_message) /\
    (error_message = "" ->
     d1 = "RedisService not initialized. Call `initialize()` first" /\
     d2 = "RedisService is already initialized.").
Proof.
  unfold new_RedisNotInitializedException, new_RedisAlreadyInitializedException.
  destruct (String.eqb_spec error_message "") as [->|Hne].
  - eexists _, _. repeat split; try done.
  - eexists _, _. repeat split; try done.
Qed.

Lemma redis_exceptions_detail_witness :
  new_RedisNotInitializedException "pool is down"
  = RedisNotInitializedException 404 "pool is down" /\
  new_RedisAlreadyInitializedException ""
  = RedisAlreadyInitializedException 404 "RedisService is already initialized.".
Proof.
  destruct (redis_exceptions_detail "pool is down")
    as (d1 & d2 & H1 & _ & _ & _ & Hne & _).
  destruct (redis_exceptions_detail "")
    as (e1 & e2 & _ & H2 & _ & _ & _ & He).
  destruct Hne as [-> _]; [discriminate|].
  destruct He as [_ ->]; [reflexivity|].
  split; [exact H1 | exact H2].
Defined.

(** * Closing and configuring the asynchronous service *)

(** When closing fails, the attributes are not cleared.  If the client's
    [aclose] raises, the exception comes out, the pool's [aclose] is not
    called and [_pool] and [_client] stay as they were; if the client's
    [aclose] returns and the pool's raises, both calls were made and again
    both attributes stay. *)
Theorem aclose_failure_keeps_references {B U} (w : World B U)
    (c : Redis) (p : ConnectionPool) :
  self_client w = Some c ->
  self_pool w = Some p ->
  (forall e s,
     redis_aclose B c (srv w) = (Raise e, s) ->
     AsyncRedisService.aclose w
     = (Raise e, set_srv_trace s (trace w ++ [CAclose c]) w)) /\
  (forall s e s',
     redis_aclose B c (srv w) = (Ok tt, s) ->
     pool_aclose B p s = (Raise e, s') ->
     AsyncRedisService.aclose w
     = (Raise e, set_srv_trace s' (trace w ++ [CAclose c; CPoolAclose p]) w)) /\
  (forall e w',
     AsyncRedisService.aclose w = (Raise e, w') ->
     self_client w' = Some c /\ self_pool w' = Some p /\
     AsyncRedisService.get_connection w' = (Ok c, w')).
Proof.
  intros Hc Hp.
  assert (forall e s,
     redis_aclose B c (srv w) = (Raise e, s) ->
     AsyncRedisService.aclose w
     = (Raise e, set_srv_trace s (trace w ++ [CAclose c]) w)) as H1.
  { intros e s Hx. unfold AsyncRedisService.aclose. run.
    rewrite Hc. simpl. by rewrite Hx. }
  assert (forall s e s',
     redis_aclose B c (srv w) = (Ok tt, s) ->
     pool_aclose B p s = (Raise e, s') ->
     AsyncRedisService.aclose w
     = (Raise e, set_srv_trace s' (trace w ++ [CAclose c; CPoolAclose p]) w))
    as H2.
  { intros s e s' Hx Hy. unfold AsyncRedisService.aclose. run.
    rewrite Hc. simpl. rewrite Hx. simpl. rewrite Hp. simpl. rewrite Hy.
    unfold set_srv_trace. simpl. by rewrite <- app_assoc. }
  split; [exact H1|]. split; [exact H2|].
  intros e w' Hx.
  destruct (redis_aclose B c (srv w)) as [[[]|e1] s] eqn:Hx1.
  - destruct (pool_aclose B p s) as [[[]|e2] s'] eqn:Hx2.
    + revert Hx. unfold AsyncRedisService.aclose. run.
      rewrite Hc. simpl. rewrite Hx1. simpl. rewrite Hp. simpl. rewrite Hx2.
      discriminate.
    + rewrite (H2 s e2 s' eq_refl Hx2) in Hx. injection Hx as <- <-.
      repeat split; try done. by apply get_connection_with_client.
  - rewrite (H1 e1 s eq_refl) in Hx. injection Hx as <- <-.
    repeat split; try done. by apply get_connection_with_client.
Qed.

(** A backend whose clients cannot be closed; everything else is the
    reference backend. *)
Definition failing_aclose : Backend :=
  {| Srv := RefStore.store;
     redis_get := RefStore.ref_get;
     redis_set := RefStore.ref_set;
     redis_mget := RefStore.ref_mget;
     redis_mset := RefStore.ref_mset;
     redis_keys := RefStore.ref_keys;
     redis_delete := RefStore.ref_delete;
     redis_exists := RefStore.ref_exists;
     redis_flushdb := fun _ _ => (Ok true, ∅);
     redis_close := fun _ s => (Ok tt, s);
     redis_aclose := fun _ s => (Raise (RedisError "Connection reset"), s);
     pool_aclose := fun _ s => (Ok tt, s) |}.

Definition world_failing_aclose : World failing_aclose unit :=
  Build_World failing_aclose unit (∅ : RefStore.store) [] tt O
              None None (Some main_pool) (Some (RedisPooled main_pool)).

Lemma aclose_failure_keeps_references_witness :
  AsyncRedisService.aclose world_failing_aclose
  = (Raise (RedisError "Connection reset"),
     set_srv_trace (B := failing_aclose) (∅ : RefStore.store)
       [CAclose (RedisPooled main_pool)] world_failing_aclose).
Proof.
  exact (proj1 (aclose_failure_keeps_references (B := failing_aclose)
                  world_failing_aclose (RedisPooled main_pool) main_pool
                  eq_refl eq_refl)
               (RedisError "Connection reset") (∅ : RefStore.store) eq_refl).
Defined.

(** Closing is repeatable: after an [aclose] that returned, another
    [aclose] returns too, calls nothing and changes nothing. *)
Theorem aclose_twice_is_a_no_op {B U} (w w1 : World B U) :
  AsyncRedisService.aclose w = (Ok tt, w1) ->
  AsyncRedisService.aclose w1 = (Ok tt, w1).
Proof.
  intros Hx. destruct (aclose_ok_clears w w1 Hx) as [Hp Hc].
  unfold AsyncRedisService.aclose. run. rewrite Hc. simpl. rewrite Hp. simpl.
  f_equal. destruct w1. simpl in *. by subst.
Qed.

Lemma aclose_twice_is_a_no_op_witness :
  AsyncRedisService.aclose world_pooled = (Ok tt, world_closed) /\
  AsyncRedisService.aclose world_closed = (Ok tt, world_closed).
Proof.
  split; [reflexivity|].
  exact (aclose_twice_is_a_no_op world_pooled world_closed eq_refl).
Defined.

(** [set_connection_pool] makes no call on any client or pool, also when a
    pool is already configured.  Unless its extra keywords repeat
    [decode_responses] or [max_connections] is negative, it returns: the old
    pool and client are dropped unclosed, the new client is bound to the new
    pool, which decodes responses, and an [aclose] that follows closes the
    new client and the new pool only.  With a repeated [decode_responses] it
    raises [TypeError], with a negative [max_connections] it raises
    [ValueError], and the world, pool and client included, stays as it
    was. *)
Theorem set_connection_pool_replaces_without_closing {B U} (w : World B U)
    host port db password maxc kwargs :
  (AsyncRedisService.names_decode_responses kwargs = false ->
   0 <= maxc ->
   exists p w',
     p = {| pool_host := host; pool_port := port; pool_db := db;
            pool_password := password; max_connections := maxc;
            pool_decode_responses := true; pool_kwargs := kwargs |} /\
     AsyncRedisService.set_connection_pool host port db password maxc kwargs w
     = (Ok tt, w') /\
     self_pool w' = Some p /\ self_client w' = Some (RedisPooled p) /\
     trace w' = trace w /\ srv w' = srv w /\
     trace (snd (AsyncRedisService.aclose w'))
     = (trace w ++
        match fst (redis_aclose B (RedisPooled p) (srv w)) with
        | Ok _ => [CAclose (RedisPooled p); CPoolAclose p]
        | Raise _ => [CAclose (RedisPooled p)]
        end)%list) /\
  (AsyncRedisService.names_decode_responses kwargs = true ->
   exists msg,
     AsyncRedisService.set_connection_pool host port db password maxc kwargs w
     = (Raise (TypeError msg), w)) /\
  (AsyncRedisService.names_decode_responses kwargs = false ->
   maxc < 0 ->
   exists msg,
     AsyncRedisService.set_connection_pool host port db password maxc kwargs w
     = (Raise (ValueError msg), w)).
Proof.
  split; [|split].
  - intros Hk Hm.
    destruct (set_connection_pool_then_get_connection
                w host port db password maxc kwargs Hk Hm)
      as (p & w' & -> & Hs & Hp & Hc & Ht & Hsrv & _).
    eexists _, w'. split; [reflexivity|]. split; [exact Hs|].
    split; [exact Hp|]. split; [exact Hc|]. split; [exact Ht|].
    split; [exact Hsrv|].
    unfold AsyncRedisService.aclose. run. rewrite Hc. simpl. rewrite Hsrv, Ht.
    destruct (redis_aclose B _ (srv w)) as [[[]|e] s]; simpl; [|done].
    rewrite Hp. simpl.
    destruct (pool_aclose B _ s) as [[[]|e] s']; simpl; by rewrite <- app_assoc.
  - intros Hk. unfold AsyncRedisService.set_connection_pool,
      AsyncRedisService.new_ConnectionPool. rewrite Hk. eauto.
  - intros Hk Hm. unfold AsyncRedisService.set_connection_pool,
      AsyncRedisService.new_ConnectionPool. rewrite Hk.
    destruct (Z.ltb_spec maxc 0) as [_|]; [|lia]. eauto.
Qed.

Lemma set_connection_pool_replaces_without_closing_witness :
  (exists w',
     AsyncRedisService.set_connection_pool "elsewhere" 6380 1 None 10 []
       world_pooled = (Ok tt, w') /\
     self_pool w'
     = Some {| pool_host := "elsewhere"; pool_port := 6380; pool_db := 1;
               pool_password := None; max_connections := 10;
               pool_decode_responses := true; pool_kwargs := [] |} /\
     trace w' = []) /\
  (exists msg,
     AsyncRedisService.set_connection_pool "localhost" 6379 0 None 100
       [("decode_responses", PBool false)] world_pooled
     = (Raise (TypeError msg), world_pooled)) /\
  (exists msg,
     AsyncRedisService.set_connection_pool "localhost" 6379 0 None (-1) []
       world_pooled
     = (Raise (ValueError msg), world_pooled)).
Proof.
  split; [|split].
  - destruct (proj1 (set_connection_pool_replaces_without_closing
                       (B := RefStore.backend) world_pooled
                       "elsewhere" 6380 1 None 10 []) eq_refl)
      as (p & w' & -> & Hs & Hp & _ & Ht & _); [discriminate|].
    exists w'. split; [exact Hs|]. split; [exact Hp | exact Ht].
  - exact (proj1 (proj2 (set_connection_pool_replaces_without_closing
                           (B := RefStore.backend) world_pooled
                           "localhost" 6379 0 None 100
                           [("decode_responses", PBool false)])) eq_refl).
  - exact (proj2 (proj2 (set_connection_pool_replaces_without_closing
                           (B := RefStore.backend) world_pooled
                           "localhost" 6379 0 None (-1) [])) eq_refl eq_refl).
Defined.

(** A managed block gives back what its body gave, value or exception,
    after closing; only a failure of the closing itself takes its place. *)
Theorem async_with_never_swallows {B U} {A} (body : M (World B U) A)
    (w w1 w2 : World B U) (rb : result A) (rx : result unit) :
  body w = (rb, w1) ->
  AsyncRedisService.aclose w1 = (rx, w2) ->
  AsyncRedisService.async_with body w
  = (match rx with
     | Ok _ => rb
     | Raise e' => Raise e'
     end, w2).
Proof.
  intros Hb Hx.
  unfold AsyncRedisService.async_with, AsyncRedisService.__aenter__,
    AsyncRedisService.__aexit__. run.
  rewrite Hb. destruct rb as [a|e]; rewrite Hx; by destruct rx.
Qed.

Lemma async_with_never_swallows_witness :
  AsyncRedisService.async_with
    (bind (AsyncRedisService.set (PStr "bar") (PFunc O) None)
          (fun _ => AsyncRedisService.get (PStr "bar"))) world_pooled
  = (Raise RefStore.DataError,
     Build_World RefStore.backend unit (∅ : RefStore.store)
       [CSet (RedisPooled main_pool) (PStr "bar") (PFunc O) None;
        CAclose (RedisPooled main_pool); CPoolAclose main_pool] tt O
       None None None None).
Proof.
  exact (async_with_never_swallows (B := RefStore.backend)
           (bind (AsyncRedisService.set (PStr "bar") (PFunc O) None)
                 (fun _ => AsyncRedisService.get (PStr "bar")))
           world_pooled
           (set_srv_trace (B := RefStore.backend) (∅ : RefStore.store)
              [CSet (RedisPooled main_pool) (PStr "bar") (PFunc O) None]
              world_pooled)
           _ (Raise RefStore.DataError) (Ok tt) eq_refl eq_refl).
Defined.

(** * Sequences of calls on [AsyncRedisService] *)

Inductive async_call : Type :=
| ACallInit
| ACallSetConnectionPool (host : string) (port db : Z)
    (password : option string) (max_connections : Z)
    (kwargs : list (string * pyval))
| ACallGetConnection
| ACallAclose
| ACallGet (key : pyval)
| ACallSet (key value : pyval) (expire : option Z)
| ACallMget (keys : list pyval)
| ACallMset (mapping : list (pyval * pyval))
| ACallGetByPattern (pattern : pyval)
| ACallDelete (key : pyval)
| ACallExists (key : pyval)
| ACallKeys (pattern : pyval)
| ACallFlushdb
| ACallPipeline
| ACallWrapped (key : pyval) (expire : option Z) (func : pyval)
    (args : AsyncRedisService.pyargs).

Definition async_step {B U}
    (funcs : nat -> AsyncRedisService.pyargs -> M (World B U) pyval)
    (call : async_call) (w : World B U) : World B U :=
  match call with
  | ACallInit => snd (AsyncRedisService.__init__ w)
  | ACallSetConnectionPool host port db password maxc kwargs =>
      snd (AsyncRedisService.set_connection_pool
             host port db password maxc kwargs w)
  | ACallGetConnection => snd (AsyncRedisService.get_connection w)
  | ACallAclose => snd (AsyncRedisService.aclose w)
  | ACallGet key => snd (AsyncRedisService.get key w)
  | ACallSet key value expire => snd (AsyncRedisService.set key value expire w)
  | ACallMget keys => snd (AsyncRedisService.mget keys w)
  | ACallMset mapping => snd (AsyncRedisService.mset mapping w)
  | ACallGetByPattern pattern => snd (AsyncRedisService.get_by_pattern pattern w)
  | ACallDelete key => snd (AsyncRedisService.delete key w)
  | ACallExists key => snd (AsyncRedisService.exists_ key w)
  | ACallKeys pattern => snd (AsyncRedisService.keys pattern w)
  | ACallFlushdb => snd (AsyncRedisService.flushdb w)
  | ACallPipeline => snd (AsyncRedisService.pipeline w)
  | ACallWrapped key expire func args =>
      snd (AsyncRedisService.wrapper funcs key expire func args w)
  end.

Definition async_run {B U}
    (funcs : nat -> AsyncRedisService.pyargs -> M (World B U) pyval)
    (calls : list async_call) (w : World B U) : World B U :=
  fold_left (fun w call => async_step funcs call w) calls w.

(** The two attributes go together: both [None], or a pool that decodes
    responses and the client bound to it. *)
Definition pool_and_client_agree {B U} (w : World B U) : Prop :=
  match self_pool w, self_client w with
  | None, None => True
  | Some p, Some c => c = RedisPooled p /\ pool_decode_responses p = true
  | _, _ => False
  end.

(** Calls that can bring a client into being: configuring the pool, and a
    wrapped function, which is free to do so itself. *)
Definition may_configure (call : async_call) : bool :=
  match call with
  | ACallSetConnectionPool _ _ _ _ _ _ => true
  | ACallWrapped _ _ _ _ => true
  | _ => false
  end.

Section AsyncRedisService_sequences.
Context {B : Backend} {U : Type}.
Variable funcs : nat -> AsyncRedisService.pyargs -> M (World B U) pyval.
Implicit Types w : World B U.

(** A method that is [get_connection] followed by calls on the client leaves
    the two attributes alone. *)
Lemma bind_get_connection_agree {A} (k : Redis -> M (World B U) A) w :
  (forall c w0, self_pool (snd (k c w0)) = self_pool w0 /\
                self_client (snd (k c w0)) = self_client w0) ->
  self_pool (snd (bind AsyncRedisService.get_connection k w)) = self_pool w /\
  self_client (snd (bind AsyncRedisService.get_connection k w)) = self_client w.
Proof.
  intros Hk. unfold bind, AsyncRedisService.get_connection. run.
  destruct (self_client w) as [c|] eqn:Hc; simpl; [|done].
  destruct (Hk c w) as [-> ->]. done.
Qed.

Lemma invoke_frame {A} cmd (h : Srv B -> result A * Srv B) w :
  self_pool (snd (invoke (U := U) cmd h w)) = self_pool w /\
  self_client (snd (invoke cmd h w)) = self_client w.
Proof. unfold invoke. by destruct (h (srv w)). Qed.

Lemma bind_invoke_frame {A C} cmd (h : Srv B -> result A * Srv B)
    (k : A -> M (World B U) C) w :
  (forall a w0, self_pool (snd (k a w0)) = self_pool w0 /\
                self_client (snd (k a w0)) = self_client w0) ->
  self_pool (snd (bind (invoke cmd h) k w)) = self_pool w /\
  self_client (snd (bind (invoke cmd h) k w)) = self_client w.
Proof.
  intros Hk. unfold bind, invoke.
  destruct (h (srv w)) as [[a|e] s]; simpl; [|done].
  destruct (Hk a (set_srv_trace s (trace w ++ [cmd]) w)) as [-> ->]. done.
Qed.

(** No key-value operation touches [_pool] or [_client]. *)
Lemma key_value_calls_frame call w :
  match call with
  | ACallInit | ACallSetConnectionPool _ _ _ _ _ _ | ACallAclose
  | ACallWrapped _ _ _ _ => True
  | _ =>
      self_pool (async_step funcs call w) = self_pool w /\
      self_client (async_step funcs call w) = self_client w
  end.
Proof.
  destruct call; simpl; try done;
    try (apply bind_get_connection_agree; intros c w0;
         first [ apply invoke_frame
               | apply bind_invoke_frame; intros a w1; try done ]).
  - unfold AsyncRedisService.get_connection. run.
    by destruct (self_client w) eqn:Hc.
  - destruct a as [|k0 ks]; [done|].
    apply bind_invoke_frame. by intros vs w2.
Qed.

Lemma aclose_agree w :
  pool_and_client_agree w ->
  pool_and_client_agree (snd (AsyncRedisService.aclose w)).
Proof.
  unfold pool_and_client_agree.
  destruct (self_pool w) as [p|] eqn:Hp, (self_client w) as [c|] eqn:Hc;
    try done.
  - intros [-> Hd]. unfold AsyncRedisService.aclose. run. rewrite Hc. simpl.
    destruct (redis_aclose B (RedisPooled p) (srv w)) as [[[]|e] s]; simpl;
      rewrite ?Hp, ?Hc; simpl; [|done].
    destruct (pool_aclose B p s) as [[[]|e] s']; simpl; rewrite ?Hp, ?Hc; done.
  - intros _. destruct (aclose_without_pool w Hp Hc) as (w' & Hx & _).
    rewrite Hx. simpl. by destruct (aclose_ok_clears w w' Hx) as [-> ->].
Qed.

(** The world a wrapper leaves: the one its function leaves, passed
    through [set] when the function returned. *)
Lemma wrapper_final_world key expire func args w :
  snd (AsyncRedisService.wrapper funcs key expire func args w)
  = match AsyncRedisService.call funcs func args w with
    | (Ok r, w1) => snd (AsyncRedisService.set key r expire w1)
    | (Raise _, w1) => w1
    end.
Proof.
  unfold AsyncRedisService.wrapper, bind.
  destruct (AsyncRedisService.call funcs func args w) as [[r|e] w1]; [|done].
  by destruct (AsyncRedisService.set key r expire w1) as [[b|e] w2].
Qed.

Lemma async_step_agree call w :
  (forall f args w0,
     pool_and_client_agree w0 -> pool_and_client_agree (snd (funcs f args w0))) ->
  pool_and_client_agree w -> pool_and_client_agree (async_step funcs call w).
Proof.
  intros Hf Hw.
  pose proof (key_value_calls_frame call w) as Hframe.
  destruct call;
    try (unfold pool_and_client_agree;
         by rewrite (proj1 Hframe), (proj2 Hframe)).
  - done.
  - simpl.
    destruct (set_connection_pool_final_world
                w host port db password max_connections0 kwargs)
      as [->|(p & Hd & ->)]; [done|].
    unfold pool_and_client_agree. simpl. done.
  - by apply aclose_agree.
  - simpl. rewrite wrapper_final_world. unfold AsyncRedisService.call.
    destruct func as [| | | |f]; try done.
    specialize (Hf f args w Hw).
    destruct (funcs f args w) as [[r|e] w1]; simpl in *; [|done].
    destruct (key_value_calls_frame (ACallSet key r expire) w1) as [Hp Hc].
    simpl in Hp, Hc. unfold pool_and_client_agree. by rewrite Hp, Hc.
Qed.

(** Without a client, a call that cannot configure one reaches nothing. *)
Lemma async_step_without_client call w :
  may_configure call = false ->
  self_client w = None -> self_pool w = None ->
  trace (async_step funcs call w) = trace w /\
  srv (async_step funcs call w) = srv w /\
  self_client (async_step funcs call w) = None /\
  self_pool (async_step funcs call w) = None.
Proof.
  intros Hm Hc Hp.
  destruct call; try discriminate; simpl;
    try (unfold AsyncRedisService.get, AsyncRedisService.set,
           AsyncRedisService.mget, AsyncRedisService.mset,
           AsyncRedisService.get_by_pattern, AsyncRedisService.delete,
           AsyncRedisService.exists_, AsyncRedisService.keys,
           AsyncRedisService.flushdb, AsyncRedisService.pipeline;
         by rewrite needs_connection_without_client).
  - done.
  - by rewrite get_connection_without_client.
  - destruct (aclose_without_pool w Hp Hc) as (w' & Hx & Hs & Ht).
    rewrite Hx. simpl. destruct (aclose_ok_clears w w' Hx) as [Hp' Hc'].
    done.
Qed.

End AsyncRedisService_sequences.

(** From [__init__] on, through every sequence of calls, wrapped functions
    included as long as they keep it themselves, [_pool] and [_client] are
    both [None] or a pool and the client bound to it; so a client that
    [get_connection] returns is bound to the recorded pool, which decodes
    responses. *)
Theorem pool_and_client_always_agree {B U}
    (funcs : nat -> AsyncRedisService.pyargs -> M (World B U) pyval)
    (calls : list async_call) (w0 : World B U) :
  (forall f args w,
     pool_and_client_agree w -> pool_and_client_agree (snd (funcs f args w))) ->
  pool_and_client_agree
    (async_run funcs calls (snd (AsyncRedisService.__init__ w0))) /\
  (forall c,
     fst (AsyncRedisService.get_connection
            (async_run funcs calls (snd (AsyncRedisService.__init__ w0))))
     = Ok c ->
     exists p,
       self_pool (async_run funcs calls (snd (AsyncRedisService.__init__ w0)))
       = Some p /\
       c = RedisPooled p /\ pool_decode_responses p = true).
Proof.
  intros Hf.
  assert (forall w, pool_and_client_agree w ->
                    pool_and_client_agree (async_run funcs calls w)) as Hrun.
  { induction calls as [|call calls IH]; intros w Hw; [done|].
    simpl. apply IH. by apply async_step_agree. }
  assert (pool_and_client_agree
            (async_run funcs calls (snd (AsyncRedisService.__init__ w0))))
    as Hagree by (by apply Hrun).
  split; [exact Hagree|].
  intros c. unfold AsyncRedisService.get_connection. run.
  unfold pool_and_client_agree in Hagree.
  destruct (self_pool _) as [p|], (self_client _) as [c'|]; try done.
  intros [= <-]. destruct Hagree as [-> Hd]. eauto.
Qed.

Lemma r1_then_r2_keeps_attributes f args (w : World RefStore.backend nat) :
  pool_and_client_agree w -> pool_and_client_agree (snd (r1_then_r2 f args w)).
Proof. done. Qed.

Lemma pool_and_client_always_agree_witness :
  pool_and_client_agree
    (async_run r1_then_r2
       [ACallSetConnectionPool "localhost" 6379 0 None 200 [];
        ACallWrapped (PStr "fixed-key") None (PFunc O) ([], []);
        ACallSetConnectionPool "elsewhere" 6380 1 None 10 [];
        ACallGetByPattern (PStr "f*")]
       (snd (AsyncRedisService.__init__ world_counting))).
Proof.
  exact (proj1 (pool_and_client_always_agree r1_then_r2
                  [ACallSetConnectionPool "localhost" 6379 0 None 200 [];
                   ACallWrapped (PStr "fixed-key") None (PFunc O) ([], []);
                   ACallSetConnectionPool "elsewhere" 6380 1 None 10 [];
                   ACallGetByPattern (PStr "f*")]
                  world_counting r1_then_r2_keeps_attributes)).
Defined.

(** Before a pool is configured nothing reaches a client: from a world
    with neither pool nor client, a sequence of calls without
    [set_connection_pool] and without wrapped functions makes no call on a
    client and leaves the server as it is. *)
Theorem nothing_is_called_before_configuration {B U}
    (funcs : nat -> AsyncRedisService.pyargs -> M (World B U) pyval)
    (calls : list async_call) (w : World B U) :
  self_client w = None ->
  self_pool w = None ->
  forallb (fun call => negb (may_configure call)) calls = true ->
  trace (async_run funcs calls w) = trace w /\
  srv (async_run funcs calls w) = srv w /\
  self_client (async_run funcs calls w) = None.
Proof.
  revert w. induction calls as [|call calls IH]; intros w Hc Hp Hall; [done|].
  simpl in Hall. apply andb_prop in Hall as [Hcall Hall].
  apply negb_true_iff in Hcall.
  destruct (async_step_without_client funcs call w Hcall Hc Hp)
    as (Ht & Hs & Hc' & Hp').
  simpl. destruct (IH (async_step funcs call w) Hc' Hp' Hall) as (-> & -> & ->).
  done.
Qed.

Lemma nothing_is_called_before_configuration_witness :
  trace (async_run r1_then_r2
           [ACallSet (PStr "foo") (PStr "bar") None; ACallAclose;
            ACallGetByPattern (PStr "*"); ACallFlushdb; ACallPipeline]
           (RefStore.fresh O)) = [].
Proof.
  exact (proj1 (nothing_is_called_before_configuration r1_then_r2
                  [ACallSet (PStr "foo") (PStr "bar") None; ACallAclose;
                   ACallGetByPattern (PStr "*"); ACallFlushdb; ACallPipeline]
                  (RefStore.fresh O) eq_refl eq_refl eq_refl)).
Defined.

(** * More on the caching decorator *)

(** How a wrapped call fails.  A function that raises is followed by no
    call on the client.  A function that returned has run, with whatever it
    did to the world, before the storing is tried: with no client the
    wrapper raises the "Connection pool not set" exception, and when the
    client's [set] raises, that exception comes out; the function's result
    is lost in both cases. *)
Theorem wrapper_failures {B U}
    (funcs : nat -> AsyncRedisService.pyargs -> M (World B U) pyval)
    (key : pyval) (expire : option Z) (f : nat)
    (args : AsyncRedisService.pyargs) (w w1 : World B U) (rf : result pyval) :
  funcs f args w = (rf, w1) ->
  (forall e, rf = Raise e ->
     AsyncRedisService.wrapper funcs key expire (PFunc f) args w
     = (Raise e, w1)) /\
  (forall r, rf = Ok r -> self_client w1 = None ->
     AsyncRedisService.wrapper funcs key expire (PFunc f) args w
     = (Raise pool_not_set, w1)) /\
  (forall r c e s, rf = Ok r -> self_client w1 = Some c ->
     redis_set B c key r expire (srv w1) = (Raise e, s) ->
     AsyncRedisService.wrapper funcs key expire (PFunc f) args w
     = (Raise e, set_srv_trace s (trace w1 ++ [CSet c key r expire]) w1)).
Proof.
  intros Hf. split; [|split].
  - intros e ->. by apply wrapper_func_raises.
  - intros r -> Hc. unfold AsyncRedisService.wrapper, AsyncRedisService.call.
    unfold bind at 1. rewrite Hf. unfold AsyncRedisService.set.
    unfold bind at 1. by rewrite needs_connection_without_client.
  - intros r c e s -> Hc Hs.
    rewrite (wrapper_run funcs key expire f args w r w1 c Hf Hc).
    by rewrite Hs.
Qed.

Lemma wrapper_failures_witness :
  AsyncRedisService.wrapper r1_then_r2 (PStr "fixed-key") None (PFunc O)
    ([], []) (RefStore.fresh O)
  = (Raise pool_not_set,
     Build_World RefStore.backend nat (∅ : RefStore.store) [] 1%nat O
       None None None None).
Proof.
  exact (proj1 (proj2 (wrapper_failures (B := RefStore.backend) r1_then_r2
                  (PStr "fixed-key") None O ([], []) (RefStore.fresh O) _ _
                  eq_refl))
               (PStr "r1") eq_refl eq_refl).
Defined.

(** * The mapping [get_by_pattern] returns *)

(** When the client lists pairwise distinct keys and answers the batch
    fetch with one value per key, the mapping returned has exactly the
    listed keys, as many entries as keys, and gives each key the value at
    its position in the answer. *)
Theorem get_by_pattern_aligned {B U} (w : World B U) (pattern : pyval)
    (c : Redis) (ks : list string) (vs : list (option string))
    (s1 s2 : Srv B) :
  self_client w = Some c ->
  redis_keys B c pattern (srv w) = (Ok ks, s1) ->
  redis_mget B c (PStr <$> ks) s1 = (Ok vs, s2) ->
  NoDup ks ->
  length vs = length ks ->
  exists m : gmap string (option string),
    fst (AsyncRedisService.get_by_pattern pattern w) = Ok m /\
    dom m = list_to_set ks /\
    size m = length ks /\
    (forall i k, ks !! i = Some k -> m !! k = vs !! i).
Proof.
  intros Hc Hk Hm Hnd Hlen.
  exists (AsyncRedisService.dict_of (zip ks vs)).
  assert (forall i k, ks !! i = Some k ->
            AsyncRedisService.dict_of (zip ks vs) !! k = vs !! i) as Hlook.
  { intros i k Hi.
    destruct (vs !! i) as [v|] eqn:Hv.
    - by eapply dict_of_zip_lookup.
    - apply lookup_ge_None in Hv. apply lookup_lt_Some in Hi. lia. }
  assert (dom (AsyncRedisService.dict_of (zip ks vs)) = list_to_set ks) as Hdom.
  { apply set_eq. intros k. rewrite elem_of_dom, elem_of_list_to_set. split.
    - intros Hs. destruct (decide (k ∈ ks)) as [|Hn]; [done|].
      rewrite (dict_of_zip_lookup_None ks vs k Hn) in Hs. by destruct Hs.
    - intros Hin. apply list_elem_of_lookup in Hin as [i Hi].
      rewrite (Hlook i k Hi). apply lookup_lt_is_Some.
      apply lookup_lt_Some in Hi. lia. }
  split; [|split; [done|split; [|done]]].
  - unfold AsyncRedisService.get_by_pattern.
    rewrite (needs_connection_with_client _ w c Hc). run. rewrite Hk.
    destruct ks as [|k0 ks]; simpl in *.
    + by destruct vs.
    + by rewrite Hm.
  - rewrite <- size_dom, Hdom. by apply size_list_to_set.
Qed.

Lemma get_by_pattern_aligned_witness :
  exists m : gmap string (option string),
    fst (AsyncRedisService.get_by_pattern (PStr "ns:*") world_ns) = Ok m /\
    dom m = list_to_set ["ns:1"; "ns:2"] /\
    size m = 2%nat /\
    (forall i k, ["ns:1"; "ns:2"] !! i = Some k ->
                 m !! k = [Some "x"; Some "y"] !! i).
Proof.
  apply (get_by_pattern_aligned (B := RefStore.backend) world_ns (PStr "ns:*")
           (RedisPooled main_pool) ["ns:1"; "ns:2"] [Some "x"; Some "y"]
           ns_store ns_store).
  - reflexivity.
  - vm_compute. reflexivity.
  - vm_compute. reflexivity.
  - apply NoDup_cons. split; [|apply NoDup_singleton].
    intros Hin. apply list_elem_of_singleton in Hin. discriminate.
  - reflexivity.
Defined.

(** * The response envelope: [ResponseService] and the health check

    [src/services/response_service.py] and
    [src/app/health_check/health_check_controller.py].  The module-level
    [response] object is one mutable object shared by all requests; a
    setter returns [self], here the updated object. *)
Module ResponseService.

Record t : Type := {
  status : string;
  status_code : Z;
  status_message : string;
  data : gmap string pyval;
  message : string
}.

(** [ResponseService.__init__] *)
Definition __init__ : t :=
  {| status := "success"; status_code := 200;
     status_message := "Request Success"; data := ∅; message := "" |}.

(** [ResponseService.add_message] *)
Definition add_message (message' : string) (self : t) : t :=
  {| status := status self; status_code := status_code self;
     status_message := status_message self; data := data self;
     message := message' |}.

(** [ResponseService.add_status] *)
Definition add_status (status' : string) (self : t) : t :=
  {| status := status'; status_code := status_code self;
     status_message := status_message self; data := data self;
     message := message self |}.

(** [ResponseService.add_status_code] *)
Definition add_status_code (status_code' : Z) (self : t) : t :=
  {| status := status self; status_code := status_code';
     status_message := status_message self; data := data self;
     message := message self |}.

(** [ResponseService.add_data] *)
Definition add_data (data' : gmap string pyval) (self : t) : t :=
  {| status := status self; status_code := status_code self;
     status_message := status_message self; data := data';
     message := message self |}.

(** A value of the payload. *)
Inductive value : Type :=
| VInt (n : Z)
| VStr (s : string)
| VDict (d : gmap string pyval).

(** [ResponseService.send_response]: the dict display, entry by entry. *)
Definition send_response (self : t) : gmap string value :=
  <["message" := VStr (message self)]>
    (<["data" := VDict (data self)]>
       (<["status" := VStr (status self)]>
          (<["status_message" := VStr (status_message self)]>
             (<["status_code" := VInt (status_code self)]> ∅)))).

(** A call of one of the setters. *)
Inductive call : Type :=
| AddMessage (message : string)
| AddStatus (status : string)
| AddStatusCode (status_code : Z)
| AddData (data : gmap string pyval).

Definition step (c : call) (self : t) : t :=
  match c with
  | AddMessage m => add_message m self
  | AddStatus s => add_status s self
  | AddStatusCode n => add_status_code n self
  | AddData d => add_data d self
  end.

Definition run (calls : list call) (self : t) : t :=
  fold_left (fun self c => step c self) calls self.

End ResponseService.



(** * [EnvironmentService]

    [src/services/environment_service.py], over the process environment
    [os.environ] as a finite map from names to strings. *)
Module EnvironmentService.

(** [EnvironmentService.get] *)
Definition get (environ : gmap string string) (key : string) (default : pyval)
  : pyval :=
  let value :=
    match environ !! key with
    | Some s => PStr s
    | None => PNone
    end in
  match value with
  | PNone => default
  | _ => value
  end.

(** [EnvironmentService.get_all_env_variables] *)
Definition get_all_env_variables (environ : gmap string string)
  : gmap string string :=
  environ.

End EnvironmentService.

(** The status code a sequence of setter calls leaves: the last one given,
    or the one there was. *)
Fixpoint last_status_code (calls : list ResponseService.call) (n : Z) : Z :=
  match calls with
  | [] => n
  | ResponseService.AddStatusCode n' :: calls' => last_status_code calls' n'
  | _ :: calls' => last_status_code calls' n
  end.

Section ResponseService_properties.
Import ResponseService.


Lemma run_keeps_status_message (calls : list call) (self : t) :
  status_message (run calls self) = status_message self.
Proof.
  revert self. induction calls as [|c calls IH]; intros self; [done|].
  simpl. rewrite IH. by destruct c.
Qed.

(** No sequence of setter calls changes [status_message]: the payload of an
    object made by [__init__] says "Request Success" whatever status and
    status code it was given. *)
Theorem status_message_is_fixed (calls : list call) :
  send_response (run calls __init__) !! "status_message"
  = Some (VStr "Request Success").
Proof.
  unfold send_response.
  rewrite lookup_insert_ne by done. rewrite lookup_insert_ne by done.
  rewrite lookup_insert_ne by done. rewrite lookup_insert_eq.
  by rewrite run_keeps_status_message.
Qed.

Lemma run_status_code (calls : list call) (self : t) :
  status_code (run calls self) = last_status_code calls (status_code self).
Proof.
  revert self. induction calls as [|c calls IH]; intros self; [done|].
  simpl. rewrite IH. by destruct c.
Qed.

(** The last status code given is the one the payload shows, through any
    other setter calls; an object never given one shows the one it had. *)
Theorem status_code_is_sticky (calls : list call) (self : t) :
  send_response (run calls self) !! "status_code"
  = Some (VInt (last_status_code calls (status_code self))).
Proof.
  unfold send_response. rewrite !lookup_insert_ne by done.
  rewrite lookup_insert_eq. by rewrite run_status_code.
Qed.

End ResponseService_properties.




(** [get] returns the variable's string whenever the variable is set, the
    empty string included, and the default only when it is not set; it
    returns [None] only for an unset variable with default [None]; and it
    agrees with a lookup in the dict of [get_all_env_variables]. *)
Theorem environment_get_uses_default_only_when_unset
    (environ : gmap string string) (key : string) (default : pyval) :
  (forall s, environ !! key = Some s ->
             EnvironmentService.get environ key default = PStr s) /\
  (environ !! key = None ->
   EnvironmentService.get environ key default = default) /\
  (EnvironmentService.get environ key default = PNone <->
   environ !! key = None /\ default = PNone) /\
  EnvironmentService.get environ key default
  = from_option PStr default
      (EnvironmentService.get_all_env_variables environ !! key).
Proof.
  unfold EnvironmentService.get, EnvironmentService.get_all_env_variables.
  destruct (environ !! key) as [s|]; simpl.
  - split; [by intros ? [= ->]|]. split; [done|]. split; [|done].
    split; [done|]. by intros [? _].
  - split; [done|]. split; [done|]. split; [|done].
    split; [done|]. by intros [_ ->].
Qed.

Lemma environment_get_uses_default_only_when_unset_witness :
  EnvironmentService.get {["LOG_FILE" := ""]} "LOG_FILE" (PStr "app.log")
  = PStr "" /\
  EnvironmentService.get {["LOG_FILE" := ""]} "APP_NAME" (PStr "app")
  = PStr "app".
Proof.
  destruct (environment_get_uses_default_only_when_unset
              {["LOG_FILE" := ""]} "LOG_FILE" (PStr "app.log")) as (H1 & _).
  destruct (environment_get_uses_default_only_when_unset
              {["LOG_FILE" := ""]} "APP_NAME" (PStr "app")) as (_ & H2 & _).
  split; [apply H1 | apply H2]; vm_compute; reflexivity.
Defined.

(** * [LogService]

    [src/services/log_service.py]: the class attributes [_instance] and
    [_initialized], the instance's [logger], and the registry of loggers of
    the [logging] module.  What the Python library decides is left to it:
    [str.upper], which logger [logging.getLogger] hands out for a name,
    [os.path.dirname], and whether [os.makedirs] and the opening of the log
    file succeed. *)
Module LogService.

Inductive log_exn : Type :=
| ValueError (msg : string)
| OSError (msg : string)
| NoAttribute (msg : string).

Inductive Handler : Type :=
| StreamHandler (formatter : string)
| FileHandler (filename : string) (formatter : string).

(** A logger of the registry: the level [setLevel] gave it, if any, and its
    handlers. *)
Record Logger : Type := { level : option string; handlers : list Handler }.

Definition new_logger : Logger := {| level := None; handlers := [] |}.

(** The level names [setLevel] knows. *)
Definition known_level (l : string) : bool :=
  bool_decide (l ∈ ["CRITICAL"; "FATAL"; "ERROR"; "WARN"; "WARNING"; "INFO";
                    "DEBUG"; "NOTSET"]).

Record state (Fs : Type) : Type := {
  _instance : option obj;          (* LogService._instance *)
  _initialized : bool;             (* _initialized of the instance *)
  logger : option nat;             (* self.logger *)
  loggers : gmap nat Logger;       (* the loggers of the logging module *)
  fs : Fs;                         (* the file system *)
  next_obj : obj
}.
Arguments _instance {Fs} s.
Arguments _initialized {Fs} s.
Arguments logger {Fs} s.
Arguments loggers {Fs} s.
Arguments fs {Fs} s.
Arguments next_obj {Fs} s.

Section methods.
Context {Fs : Type}.
Variable upper : string -> string.
Variable logger_of : option string -> nat.
Variable dirname : string -> string.
Variable makedirs : string -> Fs -> (log_exn + unit) * Fs.
Variable open_log : string -> Fs -> (log_exn + unit) * Fs.

Definition the_logger (k : nat) (st : state Fs) : Logger :=
  default new_logger (loggers st !! k).

Definition set_loggers (ls : gmap nat Logger) (st : state Fs) : state Fs :=
  {| _instance := _instance st; _initialized := _initialized st;
     logger := logger st; loggers := ls; fs := fs st;
     next_obj := next_obj st |}.

Definition set_fs (f : Fs) (st : state Fs) : state Fs :=
  {| _instance := _instance st; _initialized := _initialized st;
     logger := logger st; loggers := loggers st; fs := f;
     next_obj := next_obj st |}.

Definition set_initialized (b : bool) (st : state Fs) : state Fs :=
  {| _instance := _instance st; _initialized := b;
     logger := logger st; loggers := loggers st; fs := fs st;
     next_obj := next_obj st |}.

(** [logger.addHandler(h)] with a handler just made. *)
Definition addHandler (k : nat) (h : Handler) (st : state Fs) : state Fs :=
  set_loggers
    (<[k := {| level := level (the_logger k st);
               handlers := handlers (the_logger k st) ++ [h] |}]> (loggers st))
    st.

(** [logger.setLevel(l)] with a known level name. *)
Definition setLevel (k : nat) (l : string) (st : state Fs) : state Fs :=
  set_loggers
    (<[k := {| level := Some l; handlers := handlers (the_logger k st) |}]>
       (loggers st))
    st.

(** [LogService.__new__] *)
Definition __new__ (st : state Fs) : obj * state Fs :=
  match _instance st with
  | None =>
      (next_obj st,
       {| _instance := Some (next_obj st); _initialized := false;
          logger := None; loggers := loggers st; fs := fs st;
          next_obj := S (next_obj st) |})
  | Some o => (o, st)
  end.

Definition formatter : string := "%(asctime)s %(levelname)s %(message)s".

(** Python's truth value of [log_file]. *)
Definition truthy (log_file : option string) : bool :=
  match log_file with
  | None => false
  | Some s => negb (String.eqb s "")
  end.

(** [LogService._setup_handler] *)
Definition _setup_handler (log_file : option string) (st : state Fs)
  : (log_exn + unit) * state Fs :=
  match logger st with
  | None =>
      (inl (NoAttribute "'LogService' object has no attribute 'logger'"), st)
  | Some k =>
      match handlers (the_logger k st) with
      | _ :: _ => (inr tt, st)
      | [] =>
          let st1 := addHandler k (StreamHandler formatter) st in
          match log_file with
          | Some path =>
              if truthy log_file then
                match makedirs (dirname path) (fs st1) with
                | (inl e, f) => (inl e, set_fs f st1)
                | (inr _, f) =>
                    match open_log path f with
                    | (inl e, f') => (inl e, set_fs f' st1)
                    | (inr _, f') =>
                        (inr tt,
                         addHandler k (FileHandler path formatter)
                                    (set_fs f' st1))
                    end
                end
              else (inr tt, st1)
          | None => (inr tt, st1)
          end
      end
  end.

(** [LogService.__init__] *)
Definition __init__ (name : option string) (level : string)
    (log_file : option string) (st : state Fs) : (log_exn + unit) * state Fs :=
  if _initialized st then (inr tt, st)
  else
    let k := logger_of name in
    let st1 :=
      {| _instance := _instance st; _initialized := _initialized st;
         logger := Some k; loggers := loggers st; fs := fs st;
         next_obj := next_obj st |} in
    if known_level (upper level) then
      match _setup_handler log_file (setLevel k (upper level) st1) with
      | (inl e, st2) => (inl e, st2)
      | (inr _, st2) => (inr tt, set_initialized true st2)
      end
    else (inl (ValueError ("Unknown level: '" ++ upper level ++ "'")), st1).

(** [LogService(name, level, log_file)]: [__new__], then [__init__] on what
    it returned. *)
Definition construct (name : option string) (level : string)
    (log_file : option string) (st : state Fs) : (log_exn + obj) * state Fs :=
  let '(o, st1) := __new__ st in
  match __init__ name level log_file st1 with
  | (inl e, st2) => (inl e, st2)
  | (inr _, st2) => (inr o, st2)
  end.

(** [LogService.get_logger] *)
Definition get_logger (st : state Fs) : log_exn + nat :=
  match logger st with
  | Some k => inr k
  | None => inl (NoAttribute "'LogService' object has no attribute 'logger'")
  end.

End methods.
End LogService.

Section LogService_properties.
Import LogService.
Context {Fs : Type}.
Variable upper : string -> string.
Variable logger_of : option string -> nat.
Variable dirname : string -> string.
Variable makedirs : string -> Fs -> (log_exn + unit) * Fs.
Variable open_log : string -> Fs -> (log_exn + unit) * Fs.
Implicit Types st : state Fs.

Lemma _setup_handler_keeps_instance log_file st :
  _instance (snd (_setup_handler dirname makedirs open_log log_file st))
  = _instance st /\
  _initialized (snd (_setup_handler dirname makedirs open_log log_file st))
  = _initialized st /\
  logger (snd (_setup_handler dirname makedirs open_log log_file st))
  = logger st.
Proof.
  unfold _setup_handler.
  destruct (logger st) as [k|] eqn:Hk; [|by rewrite ?Hk].
  destruct (handlers (the_logger k st)); [|by rewrite ?Hk].
  destruct log_file as [path|]; [|by rewrite ?Hk].
  destruct (truthy (Some path)); [|by rewrite ?Hk].
  destruct (makedirs _ _) as [[e|[]] f]; [by rewrite ?Hk|].
  destruct (open_log _ _) as [[e|[]] f']; by rewrite ?Hk.
Qed.

(** What a construction that returned leaves behind. *)
Lemma construct_ok_state name level log_file st st1 o :
  construct upper logger_of dirname makedirs open_log name level log_file st
  = (inr o, st1) ->
  _instance st1 = Some o /\ _initialized st1 = true.
Proof.
  unfold construct, __new__, __init__.
  destruct (_instance st) as [o0|] eqn:Hi; simpl.
  - destruct (_initialized st) eqn:Hb.
    + intros [= <- <-]. done.
    + destruct (known_level (upper level)); [|discriminate].
      match goal with
      | |- context [_setup_handler _ _ _ _ ?s] =>
          pose proof (_setup_handler_keeps_instance log_file s) as (H1 & _);
          destruct (_setup_handler dirname makedirs open_log log_file s)
            as [[e|[]] st2]; [discriminate|]
      end.
      intros [= <- <-]. simpl in *. by rewrite H1.
  - destruct (known_level (upper level)); [|discriminate].
    match goal with
    | |- context [_setup_handler _ _ _ _ ?s] =>
        pose proof (_setup_handler_keeps_instance log_file s) as (H1 & _);
        destruct (_setup_handler dirname makedirs open_log log_file s)
          as [[e|[]] st2]; [discriminate|]
    end.
    intros [= <- <-]. simpl in *. by rewrite H1.
Qed.

(** The logger is set up once: after a construction that returned, every
    later construction, with whatever name, level and log file, returns the
    same instance and changes nothing, the logger's level and handlers
    included. *)
Theorem log_service_is_set_up_once name lvl log_file st st1 o :
  construct upper logger_of dirname makedirs open_log name lvl log_file st
  = (inr o, st1) ->
  forall name' lvl' log_file',
    construct upper logger_of dirname makedirs open_log
      name' lvl' log_file' st1
    = (inr o, st1).
Proof.
  intros H name' lvl' log_file'.
  destruct (construct_ok_state name lvl log_file st st1 o H) as [Hi Hb].
  unfold construct, __new__, __init__. rewrite Hi. by rewrite Hb.
Qed.

Lemma handlers_setLevel k l st :
  handlers (the_logger k (setLevel k l st)) = handlers (the_logger k st).
Proof. unfold the_logger, setLevel. simpl. by rewrite lookup_insert_eq. Qed.

Lemma level_setLevel k l st : level (the_logger k (setLevel k l st)) = Some l.
Proof. unfold the_logger, setLevel. simpl. by rewrite lookup_insert_eq. Qed.

Lemma handlers_addHandler k h st :
  handlers (the_logger k (addHandler k h st))
  = (handlers (the_logger k st) ++ [h])%list.
Proof. unfold the_logger, addHandler. simpl. by rewrite lookup_insert_eq. Qed.

Lemma level_addHandler k h st :
  level (the_logger k (addHandler k h st)) = level (the_logger k st).
Proof. unfold the_logger, addHandler. simpl. by rewrite lookup_insert_eq. Qed.

Lemma the_logger_set_fs k f st : the_logger k (set_fs f st) = the_logger k st.
Proof. done. Qed.

Lemma the_logger_set_initialized k b st :
  the_logger k (set_initialized b st) = the_logger k st.
Proof. done. Qed.

(** The first construction of the process gives the named logger the
    upper-cased level and, when the logger has no handler yet, a stream
    handler followed by a file handler if [log_file] is a non-empty string;
    a logger that already has handlers keeps exactly those. *)
Theorem log_service_first_construction name lvl log_file st st1 o :
  _instance st = None ->
  construct upper logger_of dirname makedirs open_log name lvl log_file st
  = (inr o, st1) ->
  level (the_logger (logger_of name) st1) = Some (upper lvl) /\
  handlers (the_logger (logger_of name) st1)
  = match handlers (the_logger (logger_of name) st) with
    | [] =>
        StreamHandler formatter ::
        match log_file with
        | Some path =>
            if truthy log_file then [FileHandler path formatter] else []
        | None => []
        end
    | h :: hs => h :: hs
    end /\
  get_logger st1 = inr (logger_of name).
Proof.
  intros Hi. unfold construct, __new__, __init__. rewrite Hi. simpl.
  destruct (known_level (upper lvl)); [|discriminate].
  set (k := logger_of name).
  set (st' := {| _instance := Some (next_obj st); _initialized := false;
                 logger := Some k; loggers := loggers st; fs := fs st;
                 next_obj := S (next_obj st) |}).
  assert (handlers (the_logger k (setLevel k (upper lvl) st'))
          = handlers (the_logger k st)) as Hh
    by (rewrite handlers_setLevel; reflexivity).
  pose proof (level_setLevel k (upper lvl) st') as Hl.
  set (st0 := setLevel k (upper lvl) st') in *.
  unfold _setup_handler. change (logger st0) with (Some k).
  cbv beta iota. rewrite Hh.
  destruct (handlers (the_logger k st)) as [|h hs] eqn:Hhs.
  - destruct log_file as [path|].
    + destruct (truthy (Some path)).
      * destruct (makedirs _ _) as [[e|[]] f]; [discriminate|].
        destruct (open_log _ _) as [[e|[]] f']; [discriminate|].
        intros [= <- <-].
        rewrite the_logger_set_initialized, level_addHandler,
          handlers_addHandler, the_logger_set_fs, level_addHandler,
          handlers_addHandler, Hh, Hl.
        done.
      * intros [= <- <-].
        rewrite the_logger_set_initialized, level_addHandler,
          handlers_addHandler, Hh, Hl.
        done.
    + intros [= <- <-].
      rewrite the_logger_set_initialized, level_addHandler,
        handlers_addHandler, Hh, Hl.
      done.
  - intros [= <- <-]. by rewrite the_logger_set_initialized, Hl, Hh.
Qed.

(** [__init__] on a recorded instance that is not initialised: the set-up
    runs again, and the construction returns the recorded instance,
    initialised, exactly when the level is known and [_setup_handler]
    returns. *)
Lemma construct_again_uninitialised name lvl log_file st o :
  _instance st = Some o ->
  _initialized st = false ->
  known_level (upper lvl) = true ->
  construct upper logger_of dirname makedirs open_log name lvl log_file st
  = match _setup_handler dirname makedirs open_log log_file
            (setLevel (logger_of name) (upper lvl)
               {| _instance := _instance st; _initialized := _initialized st;
                  logger := Some (logger_of name); loggers := loggers st;
                  fs := fs st; next_obj := next_obj st |}) with
    | (inl e, st2) => (inl e, st2)
    | (inr _, st2) => (inr o, set_initialized true st2)
    end.
Proof.
  intros Hi Hb Hl. unfold construct, __new__, __init__.
  rewrite Hi, Hb, Hl. cbv beta iota zeta. rewrite ?Hi, ?Hb.
  by destruct (_setup_handler _ _ _ _ _) as [[e|[]] st2].
Qed.

Lemma _setup_handler_keeps_level log_file st k :
  logger st = Some k ->
  level (the_logger k
           (snd (_setup_handler dirname makedirs open_log log_file st)))
  = level (the_logger k st).
Proof.
  intros Hk. unfold _setup_handler. rewrite Hk.
  destruct (handlers (the_logger k st)); [|done].
  destruct log_file as [path|]; cbn [snd];
    [|by rewrite level_addHandler].
  destruct (truthy (Some path)); cbn [snd]; [|by rewrite level_addHandler].
  destruct (makedirs _ _) as [[e|[]] f]; cbn [snd];
    [by rewrite the_logger_set_fs, level_addHandler|].
  destruct (open_log _ _) as [[e|[]] f']; cbn [snd].
  - by rewrite the_logger_set_fs, level_addHandler.
  - by rewrite level_addHandler, the_logger_set_fs, level_addHandler.
Qed.

Lemma _setup_handler_without_file log_file st k :
  logger st = Some k ->
  truthy log_file = false ->
  exists st2,
    _setup_handler dirname makedirs open_log log_file st = (inr tt, st2).
Proof.
  intros Hk Ht. unfold _setup_handler. rewrite Hk.
  destruct (handlers (the_logger k st)); [|eauto].
  destruct log_file as [path|]; [|eauto]. rewrite Ht. eauto.
Qed.

(** A construction that fails on an unknown level leaves an instance that is
    not initialised, and no handler added.  The next construction with a
    known level, whatever its name and log file, runs the set-up again: if
    it returns, it returns that same instance, now initialised, with the new
    level on its logger; if the set-up of the handlers raises, the instance
    stays recorded and uninitialised; and it returns whenever [log_file] is
    [None] or empty. *)
Theorem log_service_failed_construction_is_retried name lvl log_file st :
  _instance st = None ->
  known_level (upper lvl) = false ->
  exists e st1,
    construct upper logger_of dirname makedirs open_log name lvl log_file st
    = (inl e, st1) /\
    _instance st1 = Some (next_obj st) /\
    _initialized st1 = false /\
    loggers st1 = loggers st /\
    (forall name' lvl' log_file',
       known_level (upper lvl') = true ->
       (forall o' st2,
          construct upper logger_of dirname makedirs open_log
            name' lvl' log_file' st1 = (inr o', st2) ->
          o' = next_obj st /\
          _instance st2 = Some (next_obj st) /\
          _initialized st2 = true /\
          level (the_logger (logger_of name') st2) = Some (upper lvl')) /\
       (forall e' st2,
          construct upper logger_of dirname makedirs open_log
            name' lvl' log_file' st1 = (inl e', st2) ->
          _instance st2 = Some (next_obj st) /\
          _initialized st2 = false) /\
       (truthy log_file' = false ->
        exists st2,
          construct upper logger_of dirname makedirs open_log
            name' lvl' log_file' st1 = (inr (next_obj st), st2))).
Proof.
  intros Hi Hl. unfold construct at 1, __new__, __init__. rewrite Hi. simpl.
  rewrite Hl. eexists _, _. split; [reflexivity|]. simpl.
  split; [done|]. split; [done|]. split; [done|].
  intros name' lvl' log_file' Hl'.
  match goal with
  | |- context [construct _ _ _ _ _ _ _ _ ?s] => set (st1 := s)
  end.
  rewrite (construct_again_uninitialised name' lvl' log_file' st1
             (next_obj st) eq_refl eq_refl Hl').
  match goal with
  | |- context [_setup_handler _ _ _ _ ?s] => set (st0 := s)
  end.
  pose proof (_setup_handler_keeps_instance log_file' st0) as (Hki & Hkb & _).
  pose proof (_setup_handler_keeps_level log_file' st0 (logger_of name')
                eq_refl) as Hkl.
  pose proof (fun H => _setup_handler_without_file log_file' st0
                         (logger_of name') eq_refl H) as Hnf.
  destruct (_setup_handler dirname makedirs open_log log_file' st0)
    as [[e|[]] st2]; simpl in *.
  - split; [intros o' st3 [=]|]. split.
    + intros e' st3 [= <- <-]. by rewrite Hki, Hkb.
    + intros Ht. destruct (Hnf Ht) as [st3 [=]].
  - split.
    + intros o' st3 [= <- <-]. split; [done|].
      rewrite the_logger_set_initialized, Hkl. simpl.
      split; [exact Hki|]. split; [done|].
      unfold st0. by rewrite level_setLevel.
    + split; [intros e' st3 [=]|]. eauto.
Qed.

End LogService_properties.

(** A library to run [LogService] on: upper-casing of ASCII letters, one
    logger per name length, the directory part of a path up to its last
    slash, and a file system where every directory can be made and every
    file opened. *)
Definition upper_ascii_char (c : ascii) : ascii :=
  let n := nat_of_ascii c in
  if Nat.leb 97 n && Nat.leb n 122 then ascii_of_nat (n - 32) else c.

Fixpoint upper_ascii (s : string) : string :=
  match s with
  | EmptyString => EmptyString
  | String c s' => String (upper_ascii_char c) (upper_ascii s')
  end.

Definition demo_logger_of (name : option string) : nat :=
  match name with
  | None => O
  | Some s => S (String.length s)
  end.

Fixpoint demo_dirname (path : string) : string :=
  match path with
  | EmptyString => EmptyString
  | String c path' =>
      if existsb (Ascii.eqb "/"%char) (list_ascii_of_string path')
      then String c (demo_dirname path')
      else EmptyString
  end.

Definition demo_ok (path : string) (f : unit)
  : (LogService.log_exn + unit) * unit :=
  (inr tt, f).

Definition log_start : LogService.state unit :=
  {| LogService._instance := None; LogService._initialized := false;
     LogService.logger := None; LogService.loggers := ∅;
     LogService.fs := tt; LogService.next_obj := O |}.

Definition demo_construct :=
  LogService.construct upper_ascii demo_logger_of demo_dirname demo_ok demo_ok.

Lemma log_service_is_set_up_once_witness :
  demo_construct (Some "app") "debug" None log_start
  = (inr O, snd (demo_construct (Some "app") "debug" None log_start)) /\
  demo_construct (Some "other") "ERROR" (Some "logs/app.log")
    (snd (demo_construct (Some "app") "debug" None log_start))
  = (inr O, snd (demo_construct (Some "app") "debug" None log_start)).
Proof.
  split; [reflexivity|].
  exact (log_service_is_set_up_once upper_ascii demo_logger_of demo_dirname
           demo_ok demo_ok (Some "app") "debug" None log_start _ O eq_refl
           (Some "other") "ERROR" (Some "logs/app.log")).
Defined.

Lemma log_service_first_construction_witness :
  LogService.handlers
    (LogService.the_logger 4
       (snd (demo_construct (Some "app") "debug" (Some "logs/app.log")
               log_start)))
  = [LogService.StreamHandler LogService.formatter;
     LogService.FileHandler "logs/app.log" LogService.formatter] /\
  LogService.level
    (LogService.the_logger 4
       (snd (demo_construct (Some "app") "debug" (Some "logs/app.log")
               log_start)))
  = Some "DEBUG".
Proof.
  destruct (log_service_first_construction upper_ascii demo_logger_of
              demo_dirname demo_ok demo_ok (Some "app") "debug"
              (Some "logs/app.log") log_start _ O eq_refl eq_refl)
    as (Hl & Hh & _).
  split; [exact Hh | exact Hl].
Defined.

Lemma log_service_failed_construction_is_retried_witness :
  exists e st1,
    demo_construct (Some "app") "verbose" None log_start = (inl e, st1) /\
    LogService._initialized st1 = false /\
    exists st2,
      demo_construct (Some "app") "info" (Some "") st1 = (inr O, st2) /\
      LogService._initialized st2 = true.
Proof.
  destruct (log_service_failed_construction_is_retried upper_ascii
              demo_logger_of demo_dirname demo_ok demo_ok (Some "app")
              "verbose" None log_start eq_refl eq_refl)
    as (e & st1 & Hc & _ & Hb & _ & Hretry).
  exists e, st1. split; [exact Hc|]. split; [exact Hb|].
  destruct (Hretry (Some "app") "info" (Some "") eq_refl) as (Hok & _ & Hnf).
  destruct (Hnf eq_refl) as (st2 & Hc2).
  exists st2. split; [exact Hc2|].
  exact (proj1 (proj2 (proj2 (Hok O st2 Hc2)))).
Defined.
